(** * GateFlow: the permit service, embedded and checked against its specification

    The development follows [backend/modules/permits/service.py]
    ([PermitsService]), the request models of
    [backend/modules/permits/router.py] and the enumerations and columns of
    [backend/database/models.py].

    Conventions of the embedding.
    - Identifiers, permit numbers and messages are ASCII strings.
    - A [datetime] is a number of seconds in [Z]; [timedelta(days=d)] is
      [d * 86400] seconds.
    - A nullable column or an [Optional] argument is an [option].
    - The committed content of the database is an explicit [World]; every
      service call is a computation in a state-and-exception monad over it.
    - [datetime.now()] and [uuid.uuid4()] read an oracle: the n-th reading
      of the clock is [clock n], the n-th identifier drawn is
      [uuid4_hex n].
    - The service reads and writes attributes of a permit
      ([permit_number], [valid_from], [valid_until], [gate_id], ...) that
      the [Permit] class of [models.py] does not declare; the row of the
      embedding has the attributes the service uses, and the [exit_time]
      column of [models.py]. [PermitStatus] is the enumeration of
      [models.py], which the service imports. *)

From Stdlib Require Import String Ascii List ZArith QArith Bool Lia.
From Stdlib Require Import Sorted Permutation.
Import ListNotations.

Local Open Scope string_scope.
Local Open Scope Z_scope.

(** ** Strings *)

(** [str.upper()] on ASCII text. *)
Definition upper_ascii (c : ascii) : ascii :=
  let n := nat_of_ascii c in
  if (97 <=? n)%nat && (n <=? 122)%nat then ascii_of_nat (n - 32) else c.

Fixpoint upper (s : string) : string :=
  match s with
  | EmptyString => EmptyString
  | String c s' => String (upper_ascii c) (upper s')
  end.

(** Truth value of a Python [Optional[str]]: [None] and [""] are false. *)
Definition truthy (o : option string) : bool :=
  match o with
  | None => false
  | Some s => negb (String.eqb s "")
  end.

(** ** Enumerations of [database/models.py] *)

Inductive PermitStatus := ACTIVE | EXITED | EXPIRED | FLAGGED.

(** The [.value] of a member: the lowercase strings of the source. *)
Definition PermitStatus_value (s : PermitStatus) : string :=
  match s with
  | ACTIVE => "active"
  | EXITED => "exited"
  | EXPIRED => "expired"
  | FLAGGED => "flagged"
  end.

(** [PermitStatus(v)]: Python looks an enumeration member up by value;
    [None] stands for the [ValueError] of a failed lookup. *)
Definition PermitStatus_of_value (v : string) : option PermitStatus :=
  if String.eqb v "active" then Some ACTIVE
  else if String.eqb v "exited" then Some EXITED
  else if String.eqb v "expired" then Some EXPIRED
  else if String.eqb v "flagged" then Some FLAGGED
  else None.

Definition PermitStatus_eqb (a b : PermitStatus) : bool :=
  match a, b with
  | ACTIVE, ACTIVE | EXITED, EXITED | EXPIRED, EXPIRED | FLAGGED, FLAGGED => true
  | _, _ => false
  end.

(** [PermitType] is imported by the service but is not declared in
    [models.py]; its members are those the docstring of [create_permit]
    lists, its lookup by value is a parameter of the development. *)
Inductive PermitType := TRANSIT | ENTRY | EXIT | TEMPORARY.

(** ** The permit row, with the attributes the service reads and writes
    and the [exit_time] column of [models.py] *)

Module Permit.
Record t := mk {
  id : string;
  permit_number : string;
  permit_type : PermitType;
  traveler_id : string;
  issued_by : string;
  gate_id : option string;
  city_id : option string;
  valid_from : option Z;
  valid_until : option Z;
  exit_time : option Z;
  status : PermitStatus;
  notes : option string;
  created_at : Z;
  updated_at : Z;
  updated_by : option string;
  status_change_reason : option string;
  renewed : bool;
  renewal_count : option Z
}.
End Permit.
Abbreviation Permit := Permit.t.

(** ** The committed database and the oracles consumed so far *)

Record World := mkWorld {
  permits : list Permit;
  travelers : list string;   (* primary keys of the travelers table *)
  users : list string;       (* primary keys of the users table *)
  gates : list string;       (* primary keys of the gates table *)
  cities : list string;      (* primary keys of the cities table *)
  ticks : nat;               (* readings of datetime.now() so far *)
  draws : nat                (* uuid4 values drawn so far *)
}.

Definition with_permits (w : World) (ps : list Permit) : World :=
  mkWorld ps (travelers w) (users w) (gates w) (cities w) (ticks w) (draws w).

Definition tick (w : World) : World :=
  mkWorld (permits w) (travelers w) (users w) (gates w) (cities w)
          (S (ticks w)) (draws w).

Definition draw (w : World) : World :=
  mkWorld (permits w) (travelers w) (users w) (gates w) (cities w)
          (ticks w) (S (draws w)).

(** ** Exceptions and the monad of service calls *)

Inductive Exn :=
| ValueError (msg : string)
| MultipleResultsFound.

Inductive Result (A : Type) :=
| Ok (a : A)
| Raise (e : Exn).
Arguments Ok {A} a.
Arguments Raise {A} e.

(** [str(e)] *)
Definition str_of_exn (e : Exn) : string :=
  match e with
  | ValueError msg => msg
  | MultipleResultsFound =>
      "Multiple rows were found when one or none was required"
  end.

Definition M (A : Type) : Type := World -> Result A * World.

Definition ret {A} (a : A) : M A := fun w => (Ok a, w).

Definition raise {A} (e : Exn) : M A := fun w => (Raise e, w).

Definition bind {A B} (m : M A) (k : A -> M B) : M B :=
  fun w =>
    match m w with
    | (Ok a, w') => k a w'
    | (Raise e, w') => (Raise e, w')
    end.

Notation "x <- m ;; k" := (bind m (fun x => k))
  (at level 61, m at next level, right associativity).
Notation "m ;;; k" := (bind m (fun _ => k))
  (at level 61, right associativity).

Definition gets {A} (f : World -> A) : M A := fun w => (Ok (f w), w).

Definition modify (f : World -> World) : M unit := fun w => (Ok tt, f w).

(** [result.scalar_one_or_none()] *)
Definition scalar_one_or_none {A} (rows : list A) : M (option A) :=
  match rows with
  | [] => ret None
  | [r] => ret (Some r)
  | _ => raise MultipleResultsFound
  end.

(** [select(T).where(T.id == key)] on a table projected on its key. *)
Definition select_key (table : World -> list string) (key : string)
  : M (list string) :=
  gets (fun w => filter (fun k => String.eqb k key) (table w)).

Definition select_permits (p : Permit -> bool) : M (list Permit) :=
  gets (fun w => filter p (permits w)).

(** [db.commit()] after attribute writes on a loaded row: the row with
    that primary key is replaced. *)
Definition replace_row (p : Permit) (rows : list Permit) : list Permit :=
  map (fun q => if String.eqb (Permit.id q) (Permit.id p) then p else q) rows.

Definition commit_row (p : Permit) : M unit :=
  modify (fun w => with_permits w (replace_row p (permits w))).

(** [db.add(permit); db.commit()] *)
Definition add_row (p : Permit) : M unit :=
  modify (fun w => with_permits w (permits w ++ [p])).

(** [db.delete(permit); db.commit()] *)
Definition delete_row (p : Permit) : M unit :=
  modify (fun w =>
    with_permits w (filter (fun q => negb (String.eqb (Permit.id q) (Permit.id p))) (permits w))).

(** ** [PermitsService] *)

(** The dictionary returned by [validate_permit]. *)
Record Validation := mkValidation {
  valid : bool;
  message : string;
  permit : option Permit
}.

Definition option_string_eqb (a b : option string) : bool :=
  match a, b with
  | Some x, Some y => String.eqb x y
  | None, None => true
  | _, _ => false
  end.

Definition seconds_of_days (d : Z) : Z := d * 86400.

(** The two time tests of [validate_permit], at a clock reading [t]:
    [permit.valid_until and permit.valid_until < t] and
    [permit.valid_from and permit.valid_from > t]. *)
Definition expired_at (p : Permit) (t : Z) : bool :=
  match Permit.valid_until p with
  | Some u => u <? t
  | None => false
  end.

Definition early_at (p : Permit) (t : Z) : bool :=
  match Permit.valid_from p with
  | Some f => t <? f
  | None => false
  end.

(** The equivalence of the specification between the status and the
    [exit_time] column, for a row and for the whole table. *)
Definition exit_invariant (p : Permit) : Prop :=
  Permit.status p = EXITED <-> Permit.exit_time p <> None.

Definition store_invariant (w : World) : Prop :=
  forall p, In p (permits w) -> exit_invariant p.

(** The row selected by a permit number, and by a primary key. *)
Definition has_number (number : string) (p : Permit) : bool :=
  String.eqb (Permit.permit_number p) number.

Definition has_id (permit_id : string) (p : Permit) : bool :=
  String.eqb (Permit.id p) permit_id.

Section Service.

Set Default Proof Using "Type".

(** The n-th reading of [datetime.now()]. *)
Variable clock : nat -> Z.
(** The n-th value of [uuid.uuid4().hex]. *)
Variable uuid4_hex : nat -> string.
(** [strftime('%Y%m%d')] of a datetime. *)
Variable strftime_Ymd : Z -> string.
(** [PermitType(v)], the lookup of the enumeration missing from [models.py]. *)
Variable PermitType_of_value : string -> option PermitType.
(** The primary key the database gives to a row added to the table. *)
Variable fresh_pk : list Permit -> string.

Definition now : M Z := fun w => (Ok (clock (ticks w)), tick w).

Definition uuid4 : M string := fun w => (Ok (uuid4_hex (draws w)), draw w).

(** The block the source repeats for the traveler, the issuer, the gate
    and the city: select by primary key, [scalar_one_or_none], and a
    [ValueError] when no row comes back. *)
Definition verify_exists (table : World -> list string) (key msg : string)
  : M unit :=
  rows <- select_key table key ;;
  row <- scalar_one_or_none rows ;;
  match row with
  | None => raise (ValueError msg)
  | Some _ => ret tt
  end.

(** [if gate_id: ...], [if city_id: ...]: the check runs on a true value. *)
Definition verify_if_provided (table : World -> list string)
    (key : option string) (msg : string -> string) : M unit :=
  match key with
  | Some k => if truthy key then verify_exists table k (msg k) else ret tt
  | None => ret tt
  end.

Definition create_permit
    (permit_type traveler_id issued_by_user_id : string)
    (gate_id city_id : option string) (valid_days : Z)
    (notes : option string) : M Permit :=
  (* Validate permit type *)
  permit_type_enum <-
    match PermitType_of_value (upper permit_type) with
    | Some t => ret t
    | None => raise (ValueError ("Invalid permit type: " ++ permit_type))
    end ;;
  (* Verify traveler exists *)
  verify_exists travelers traveler_id
    ("Traveler with ID " ++ traveler_id ++ " not found") ;;;
  (* Verify issuer exists *)
  verify_exists users issued_by_user_id
    ("User with ID " ++ issued_by_user_id ++ " not found") ;;;
  (* Verify gate if provided *)
  verify_if_provided gates gate_id
    (fun g => "Gate with ID " ++ g ++ " not found") ;;;
  (* Verify city if provided *)
  verify_if_provided cities city_id
    (fun c => "City with ID " ++ c ++ " not found") ;;;
  (* Generate permit number *)
  t0 <- now ;;
  hex <- uuid4 ;;
  let permit_number :=
    "PRMT-" ++ strftime_Ymd t0 ++ "-" ++ upper (substring 0 6 hex) in
  (* Calculate validity period *)
  valid_from <- now ;;
  let valid_until := valid_from + seconds_of_days valid_days in
  (* Create permit *)
  created_at <- now ;;
  updated_at <- now ;;
  pk <- gets (fun w => fresh_pk (permits w)) ;;
  let permit :=
    Permit.mk pk permit_number permit_type_enum traveler_id issued_by_user_id
      gate_id city_id (Some valid_from) (Some valid_until) None ACTIVE notes
      created_at updated_at None None false None in
  add_row permit ;;;
  ret permit.

Definition get_permit_by_id (permit_id : string) : M (option Permit) :=
  rows <- select_permits (has_id permit_id) ;;
  scalar_one_or_none rows.

Definition get_permit_by_number (permit_number : string) : M (option Permit) :=
  rows <- select_permits (has_number permit_number) ;;
  scalar_one_or_none rows.

Definition validate_permit (permit_number : string) (gate_id : option string)
  : M Validation :=
  found <- get_permit_by_number permit_number ;;
  match found with
  | None => ret (mkValidation false "Permit not found" None)
  | Some p =>
      (* Check if permit is active *)
      if negb (PermitStatus_eqb (Permit.status p) ACTIVE) then
        ret (mkValidation false
               ("Permit is " ++ PermitStatus_value (Permit.status p)) (Some p))
      else
        (* Check if permit has expired *)
        expired <-
          match Permit.valid_until p with
          | Some u => n <- now ;; ret (u <? n)
          | None => ret false
          end ;;
        if expired then
          ret (mkValidation false "Permit has expired" (Some p))
        else
          (* Check if permit has started *)
          early <-
            match Permit.valid_from p with
            | Some f => n <- now ;; ret (n <? f)
            | None => ret false
            end ;;
          if early then
            ret (mkValidation false "Permit is not yet valid" (Some p))
          else
            (* Check if gate is specified and matches *)
            if truthy gate_id && truthy (Permit.gate_id p)
               && negb (option_string_eqb (Permit.gate_id p) gate_id)
            then
              ret (mkValidation false "Permit is not valid for this gate" (Some p))
            else
              ret (mkValidation true "Permit is valid" (Some p))
  end.

(** Attribute writes on a loaded row. *)
Definition set_status (p : Permit) (s : PermitStatus) (at_ : Z)
    (by_ : string) (reason : option string) : Permit :=
  Permit.mk (Permit.id p) (Permit.permit_number p) (Permit.permit_type p)
    (Permit.traveler_id p) (Permit.issued_by p) (Permit.gate_id p)
    (Permit.city_id p) (Permit.valid_from p) (Permit.valid_until p)
    (Permit.exit_time p) s (Permit.notes p) (Permit.created_at p) at_
    (Some by_) reason (Permit.renewed p) (Permit.renewal_count p).

Definition set_renewal (p : Permit) (from_ until_ at_ : Z) (by_ : string)
  : Permit :=
  Permit.mk (Permit.id p) (Permit.permit_number p) (Permit.permit_type p)
    (Permit.traveler_id p) (Permit.issued_by p) (Permit.gate_id p)
    (Permit.city_id p) (Some from_) (Some until_)
    (Permit.exit_time p) ACTIVE (Permit.notes p) (Permit.created_at p) at_
    (Some by_) (Permit.status_change_reason p) true
    (Some (match Permit.renewal_count p with
           | Some c => if c =? 0 then 0 else c
           | None => 0
           end + 1)).

(** Lines 332-351 of [update_permit_status]: what the call does once the
    requested status has been accepted. *)
Definition write_permit_status (permit_id : string) (status_enum : PermitStatus)
    (updated_by : string) (reason : option string) : M (option Permit) :=
  found <- get_permit_by_id permit_id ;;
  match found with
  | None => ret None
  | Some p =>
      t <- now ;;
      let p' := set_status p status_enum t updated_by reason in
      commit_row p' ;;;
      ret (Some p')
  end.

Definition update_permit_status (permit_id new_status updated_by : string)
    (reason : option string) : M (option Permit) :=
  match PermitStatus_of_value (upper new_status) with
  | None => raise (ValueError ("Invalid status: " ++ new_status))
  | Some status_enum =>
      write_permit_status permit_id status_enum updated_by reason
  end.



Definition renew_permit (permit_id renewed_by : string) (additional_days : Z)
  : M (option Permit) :=
  found <- get_permit_by_id permit_id ;;
  match found with
  | None => ret None
  | Some p =>
      (* Update validity period *)
      from_ <-
        (if PermitStatus_eqb (Permit.status p) EXPIRED then now
         else match Permit.valid_until p with
              | Some u => ret u
              | None => now
              end) ;;
      let until_ := from_ + seconds_of_days additional_days in
      t <- now ;;
      let p' := set_renewal p from_ until_ t renewed_by in
      commit_row p' ;;;
      ret (Some p')
  end.

Definition delete_permit (permit_id : string) : M bool :=
  found <- get_permit_by_id permit_id ;;
  match found with
  | None => ret false
  | Some p => delete_row p ;;; ret true
  end.

(** ** The creation endpoint of [router.py] *)

Record PermitCreateRequest := mkPermitCreateRequest {
  req_permit_type : string;
  req_traveler_id : string;
  req_gate_id : option string;
  req_city_id : option string;
  req_valid_days : Z;
  req_notes : option string
}.

(** The [Field] constraints of the request model:
    [valid_days] has [ge=1, le=365], [notes] has [max_length=500]. *)
Definition PermitCreateRequest_ok (r : PermitCreateRequest) : bool :=
  (1 <=? req_valid_days r) && (req_valid_days r <=? 365)
  && match req_notes r with
     | Some n => (String.length n <=? 500)%nat
     | None => true
     end.

Inductive Response :=
| Created (p : Permit)                       (* 201 *)
| HttpError (code : Z) (detail : string).

(** [require_permissions(current_user, [...])], not defined in
    [core/security.py]: a parameter. *)
Variable require_permissions : string -> list string -> bool.

Definition create_permit_endpoint (request : PermitCreateRequest)
    (current_user : string) : World -> Response * World :=
  fun w =>
    if negb (PermitCreateRequest_ok request) then
      (HttpError 422 "Unprocessable Entity", w)
    else if negb (require_permissions current_user
                    ["permits:create"; "permits:full_access"]) then
      (HttpError 403 "You don't have permission to create permits", w)
    else
      match create_permit (req_permit_type request) (req_traveler_id request)
              current_user (req_gate_id request) (req_city_id request)
              (req_valid_days request) (req_notes request) w with
      | (Ok p, w') => (Created p, w')
      | (Raise (ValueError msg), w') => (HttpError 400 msg, w')
      | (Raise e, w') =>
          (HttpError 500 ("Error creating permit: " ++ str_of_exn e), w')
      end.

(** ** Facts about the embedding *)

(** *** Upper-casing never yields a lowercase letter *)

Lemma upper_ascii_not_lowercase (c : ascii) :
  let n := nat_of_ascii (upper_ascii c) in
  ((n <? 97)%nat || (122 <? n)%nat) = true.
Proof. destruct c as [[] [] [] [] [] [] [] []]; reflexivity. Qed.

Lemma eqb_upper_ascii_lowercase (c d : ascii) :
  (97 <= nat_of_ascii d <= 122)%nat -> Ascii.eqb (upper_ascii c) d = false.
Proof.
  intros Hd. apply Ascii.eqb_neq. intros E.
  pose proof (upper_ascii_not_lowercase c) as H. cbv zeta in H. rewrite E in H.
  apply orb_true_iff in H. destruct H as [H | H].
  - apply Nat.ltb_lt in H. lia.
  - apply Nat.ltb_lt in H. lia.
Qed.

(** The values of [PermitStatus] are lowercase, so the lookup of an
    upper-cased string fails on every input. *)
Lemma PermitStatus_of_value_upper (s : string) :
  PermitStatus_of_value (upper s) = None.
Proof.
  destruct s as [| c s]; [reflexivity |].
  unfold PermitStatus_of_value. cbn [upper String.eqb].
  rewrite !eqb_upper_ascii_lowercase by (cbn; lia).
  reflexivity.
Qed.

(** *** The monad *)

Lemma bind_ret {A B} (a : A) (k : A -> M B) (w : World) :
  bind (ret a) k w = k a w.
Proof. reflexivity. Qed.

Lemma bind_ok {A B} (m : M A) (k : A -> M B) (w w' : World) (a : A) :
  m w = (Ok a, w') -> bind m k w = k a w'.
Proof. intros H. unfold bind. rewrite H. reflexivity. Qed.

Lemma bind_raise {A B} (m : M A) (k : A -> M B) (w w' : World) (e : Exn) :
  m w = (Raise e, w') -> bind m k w = (Raise e, w').
Proof. intros H. unfold bind. rewrite H. reflexivity. Qed.

(** *** Lookups *)

Lemma PermitStatus_eqb_eq (a b : PermitStatus) :
  PermitStatus_eqb a b = true <-> a = b.
Proof. destruct a, b; cbn; split; congruence. Qed.

Lemma get_permit_by_number_none (w : World) (number : string) :
  filter (has_number number) (permits w) = [] ->
  get_permit_by_number number w = (Ok None, w).
Proof.
  intros H. unfold get_permit_by_number, select_permits, gets, bind.
  rewrite H. reflexivity.
Qed.

Lemma get_permit_by_number_one (w : World) (number : string) (p : Permit) :
  filter (has_number number) (permits w) = [p] ->
  get_permit_by_number number w = (Ok (Some p), w).
Proof.
  intros H. unfold get_permit_by_number, select_permits, gets, bind.
  rewrite H. reflexivity.
Qed.

Lemma get_permit_by_id_one (w : World) (permit_id : string) (p : Permit) :
  filter (has_id permit_id) (permits w) = [p] ->
  get_permit_by_id permit_id w = (Ok (Some p), w).
Proof.
  intros H. unfold get_permit_by_id, select_permits, gets, bind.
  rewrite H. reflexivity.
Qed.

(** A lookup reads the database and nothing else. *)
Lemma get_permit_by_number_world (w w' : World) (number : string)
    (r : Result (option Permit)) :
  get_permit_by_number number w = (r, w') -> w' = w.
Proof.
  unfold get_permit_by_number, select_permits, gets, bind, scalar_one_or_none.
  destruct (filter _ (permits w)) as [| p [| q l]]; cbn;
    intros E; inversion E; reflexivity.
Qed.

Lemma get_permit_by_id_world (w w' : World) (permit_id : string)
    (r : Result (option Permit)) :
  get_permit_by_id permit_id w = (r, w') -> w' = w.
Proof.
  unfold get_permit_by_id, select_permits, gets, bind, scalar_one_or_none.
  destruct (filter _ (permits w)) as [| p [| q l]]; cbn;
    intros E; inversion E; reflexivity.
Qed.

(** *** [validate_permit] never writes *)

Lemma validate_permit_readonly (w : World) (number : string)
    (gate : option string) :
  permits (snd (validate_permit number gate w)) = permits w.
Proof.
  unfold validate_permit, bind at 1.
  destruct (get_permit_by_number number w) as [[[p |] | e] w0] eqn:E;
    apply get_permit_by_number_world in E; subst w0; cbn; try reflexivity.
  destruct (PermitStatus_eqb (Permit.status p) ACTIVE); cbn; [| reflexivity].
  unfold bind, now, ret.
  destruct (Permit.valid_until p) as [u |]; cbn.
  - destruct (u <? clock (ticks w)); cbn; [reflexivity |].
    destruct (Permit.valid_from p) as [f |]; cbn.
    + destruct (clock (S (ticks w)) <? f); cbn; [reflexivity |].
      destruct (truthy gate && truthy (Permit.gate_id p) && _); reflexivity.
    + destruct (truthy gate && truthy (Permit.gate_id p) && _); reflexivity.
  - destruct (Permit.valid_from p) as [f |]; cbn.
    + destruct (clock (ticks w) <? f); cbn; [reflexivity |].
      destruct (truthy gate && truthy (Permit.gate_id p) && _); reflexivity.
    + destruct (truthy gate && truthy (Permit.gate_id p) && _); reflexivity.
Qed.

(** *** The outcomes of [validate_permit] *)

Lemma validate_permit_inactive (w : World) (number : string)
    (gate : option string) (p : Permit) :
  filter (has_number number) (permits w) = [p] ->
  Permit.status p <> ACTIVE ->
  validate_permit number gate w =
    (Ok (mkValidation false
           ("Permit is " ++ PermitStatus_value (Permit.status p)) (Some p)), w).
Proof.
  intros Hp Hs. unfold validate_permit, bind at 1.
  rewrite (get_permit_by_number_one _ _ _ Hp).
  destruct (PermitStatus_eqb (Permit.status p) ACTIVE) eqn:E.
  - apply PermitStatus_eqb_eq in E. contradiction.
  - reflexivity.
Qed.

Lemma validate_permit_expired (w : World) (number : string)
    (gate : option string) (p : Permit) (u : Z) :
  filter (has_number number) (permits w) = [p] ->
  Permit.status p = ACTIVE ->
  Permit.valid_until p = Some u ->
  u < clock (ticks w) ->
  validate_permit number gate w =
    (Ok (mkValidation false "Permit has expired" (Some p)), tick w).
Proof.
  intros Hp Hs Hu Hlt. unfold validate_permit, bind at 1.
  rewrite (get_permit_by_number_one _ _ _ Hp), Hs, Hu. cbn.
  unfold bind, now, ret.
  apply Z.ltb_lt in Hlt. rewrite Hlt. reflexivity.
Qed.

Lemma validate_permit_in_window (w : World) (number : string)
    (gate : option string) (p : Permit) :
  filter (has_number number) (permits w) = [p] ->
  Permit.status p = ACTIVE ->
  (forall k, expired_at p (clock k) = false /\ early_at p (clock k) = false) ->
  fst (validate_permit number gate w) =
    Ok (if truthy gate && truthy (Permit.gate_id p)
           && negb (option_string_eqb (Permit.gate_id p) gate)
        then mkValidation false "Permit is not valid for this gate" (Some p)
        else mkValidation true "Permit is valid" (Some p)).
Proof.
  intros Hp Hs Hw. unfold validate_permit, bind at 1.
  rewrite (get_permit_by_number_one _ _ _ Hp), Hs. cbn.
  unfold bind, now, ret.
  pose proof (Hw (ticks w)) as [H0 H0'].
  pose proof (Hw (S (ticks w))) as [_ H1].
  unfold expired_at, early_at in *.
  destruct (Permit.valid_until p) as [u |]; cbn.
  - rewrite H0. destruct (Permit.valid_from p) as [f |]; cbn.
    + rewrite H1.
      destruct (truthy gate && truthy (Permit.gate_id p) && _); reflexivity.
    + destruct (truthy gate && truthy (Permit.gate_id p) && _); reflexivity.
  - destruct (Permit.valid_from p) as [f |]; cbn.
    + rewrite H0'.
      destruct (truthy gate && truthy (Permit.gate_id p) && _); reflexivity.
    + destruct (truthy gate && truthy (Permit.gate_id p) && _); reflexivity.
Qed.

(** The gate test [gate_id and permit.gate_id and permit.gate_id != gate_id],
    spelled out. *)
Lemma gate_test_true (gate stored : option string) :
  truthy gate && truthy stored && negb (option_string_eqb stored gate) = true
  <-> exists g s, gate = Some g /\ stored = Some s
                  /\ g <> "" /\ s <> "" /\ s <> g.
Proof.
  split.
  - intros H. apply andb_true_iff in H as [H H3].
    apply andb_true_iff in H as [H1 H2].
    destruct gate as [g |]; [| discriminate].
    destruct stored as [s |]; [| discriminate].
    exists g, s. cbn in *.
    apply negb_true_iff in H1, H2, H3.
    apply String.eqb_neq in H1, H2, H3. auto.
  - intros (g & s & -> & -> & Hg & Hs & Hne). cbn.
    apply String.eqb_neq in Hg, Hs, Hne. rewrite Hg, Hs, Hne. reflexivity.
Qed.

(** *** The checks of [create_permit] *)


Lemma verify_exists_cases (table : World -> list string) (key msg : string)
    (w : World) :
  verify_exists table key msg w = (Ok tt, w)
  \/ exists e, verify_exists table key msg w = (Raise e, w).
Proof.
  unfold verify_exists, select_key, gets, bind, scalar_one_or_none.
  destruct (filter _ (table w)) as [| a [| b l]]; cbn;
    [right; eexists; reflexivity | left; reflexivity
    | right; eexists; reflexivity].
Qed.


Lemma verify_if_provided_cases (table : World -> list string)
    (key : option string) (msg : string -> string) (w : World) :
  verify_if_provided table key msg w = (Ok tt, w)
  \/ exists e, verify_if_provided table key msg w = (Raise e, w).
Proof.
  unfold verify_if_provided. destruct key as [k |]; [| now left].
  destruct (truthy (Some k)); [apply verify_exists_cases | now left].
Qed.


(** An empty identifier is a false value: nothing is looked up. *)
Lemma verify_if_provided_empty (table : World -> list string)
    (msg : string -> string) (w : World) :
  verify_if_provided table (Some "") msg w = (Ok tt, w).
Proof. reflexivity. Qed.

(** The row built at lines 89-110 in a world [w], for an accepted type. *)
Definition built_permit (w : World) (t : PermitType)
    (traveler_id issued_by_user_id : string) (gate_id city_id : option string)
    (valid_days : Z) (notes : option string) : Permit :=
  Permit.mk (fresh_pk (permits w))
    ("PRMT-" ++ strftime_Ymd (clock (ticks w)) ++ "-"
       ++ upper (substring 0 6 (uuid4_hex (draws w))))
    t traveler_id issued_by_user_id gate_id city_id
    (Some (clock (1 + ticks w)))
    (Some (clock (1 + ticks w) + seconds_of_days valid_days))
    None ACTIVE notes
    (clock (2 + ticks w)) (clock (3 + ticks w)) None None false None.

(** [create_permit] either raises before anything is read from the clock
    or written, or appends the built row. *)
Lemma create_permit_cases
    (permit_type traveler_id issued_by_user_id : string)
    (gate_id city_id : option string) (valid_days : Z)
    (notes : option string) (w : World) :
  let call := create_permit permit_type traveler_id issued_by_user_id
                gate_id city_id valid_days notes w in
  (exists e, call = (Raise e, w))
  \/ (exists t,
        let p := built_permit w t traveler_id issued_by_user_id
                   gate_id city_id valid_days notes in
        PermitType_of_value (upper permit_type) = Some t
        /\ fst call = Ok p
        /\ permits (snd call) = (permits w ++ [p])%list).
Proof.
  cbv zeta. unfold create_permit.
  destruct (PermitType_of_value (upper permit_type)) as [t |];
    [rewrite bind_ret | left; eexists; apply bind_raise; reflexivity].
  destruct (verify_exists_cases travelers traveler_id
              ("Traveler with ID " ++ traveler_id ++ " not found") w)
    as [H | [e H]];
    [rewrite (bind_ok _ _ _ _ _ H)
    | left; exists e; apply (bind_raise _ _ _ _ _ H)].
  destruct (verify_exists_cases users issued_by_user_id
              ("User with ID " ++ issued_by_user_id ++ " not found") w)
    as [H1 | [e H1]];
    [rewrite (bind_ok _ _ _ _ _ H1)
    | left; exists e; apply (bind_raise _ _ _ _ _ H1)].
  destruct (verify_if_provided_cases gates gate_id
              (fun g => "Gate with ID " ++ g ++ " not found") w)
    as [H2 | [e H2]];
    [rewrite (bind_ok _ _ _ _ _ H2)
    | left; exists e; apply (bind_raise _ _ _ _ _ H2)].
  destruct (verify_if_provided_cases cities city_id
              (fun c => "City with ID " ++ c ++ " not found") w)
    as [H3 | [e H3]];
    [rewrite (bind_ok _ _ _ _ _ H3)
    | left; exists e; apply (bind_raise _ _ _ _ _ H3)].
  right. exists t. split; [reflexivity |]. split; reflexivity.
Qed.

(** *** Writing a loaded row back *)

Lemma filter_one_in {A} (h : A -> bool) (l : list A) (p q : A) :
  filter h l = [p] -> In q l -> h q = true -> q = p.
Proof.
  intros Hf Hin Hq.
  assert (Hq' : In q (filter h l)) by (apply filter_In; auto).
  rewrite Hf in Hq'. destruct Hq' as [E | []]. symmetry. exact E.
Qed.

Lemma filter_one_holds {A} (h : A -> bool) (l : list A) (p : A) :
  filter h l = [p] -> h p = true.
Proof.
  intros Hf. assert (H : In p (filter h l)) by (rewrite Hf; now left).
  apply filter_In in H. tauto.
Qed.

Lemma replace_row_map {B} (f : Permit -> B) (l : list Permit)
    (i : string) (p p' : Permit) :
  filter (has_id i) l = [p] -> Permit.id p' = i -> f p' = f p ->
  map f (replace_row p' l) = map f l.
Proof.
  intros Hf Hid Hfp. unfold replace_row. rewrite map_map.
  apply map_ext_in. intros q Hq. rewrite Hid.
  destruct (String.eqb (Permit.id q) i) eqn:E; [| reflexivity].
  rewrite (filter_one_in _ _ _ _ Hf Hq E). exact Hfp.
Qed.

Lemma replace_row_filter (l : list Permit) (i : string) (p' : Permit) :
  Permit.id p' = i ->
  filter (has_id i) (replace_row p' l) = map (fun _ => p') (filter (has_id i) l).
Proof.
  intros Hid. unfold replace_row. rewrite Hid.
  induction l as [| q l IH]; [reflexivity |].
  cbn [map filter]. unfold has_id in *.
  destruct (String.eqb (Permit.id q) i) eqn:E.
  - rewrite Hid, String.eqb_refl. cbn [map]. f_equal. exact IH.
  - rewrite E. exact IH.
Qed.

Lemma write_permit_status_found (w : World) (permit_id updated_by : string)
    (s : PermitStatus) (reason : option string) (p : Permit) :
  filter (has_id permit_id) (permits w) = [p] ->
  let p' := set_status p s (clock (ticks w)) updated_by reason in
  write_permit_status permit_id s updated_by reason w =
    (Ok (Some p'), with_permits (tick w) (replace_row p' (permits w))).
Proof.
  intros Hf. cbv zeta. unfold write_permit_status.
  rewrite (bind_ok _ _ _ _ _ (get_permit_by_id_one _ _ _ Hf)).
  reflexivity.
Qed.

(** A column that [set_status] copies is not changed by the write, for
    any row and any world. *)
Lemma write_permit_status_column {B} (f : Permit -> B) (w : World)
    (permit_id updated_by : string) (s : PermitStatus)
    (reason : option string) :
  (forall p s t u r, f (set_status p s t u r) = f p) ->
  map f (permits (snd (write_permit_status permit_id s updated_by reason w)))
  = map f (permits w).
Proof.
  intros Hcopy.
  destruct (filter (has_id permit_id) (permits w)) as [| p [| q l]] eqn:Hf.
  - unfold write_permit_status, get_permit_by_id, select_permits, gets.
    unfold bind. rewrite Hf. reflexivity.
  - rewrite (write_permit_status_found _ _ _ _ _ _ Hf). cbn.
    apply (replace_row_map f _ permit_id p); [exact Hf | | apply Hcopy].
    cbn. apply String.eqb_eq. exact (filter_one_holds _ _ _ Hf).
  - unfold write_permit_status, get_permit_by_id, select_permits, gets.
    unfold bind. rewrite Hf. reflexivity.
Qed.


Lemma update_permit_status_column {B} (f : Permit -> B) (w : World)
    (permit_id new_status updated_by : string) (reason : option string) :
  (forall p s t u r, f (set_status p s t u r) = f p) ->
  map f (permits (snd (update_permit_status permit_id new_status updated_by
                         reason w)))
  = map f (permits w).
Proof.
  intros Hcopy. unfold update_permit_status.
  destruct (PermitStatus_of_value (upper new_status)) as [s |].
  - now apply write_permit_status_column.
  - reflexivity.
Qed.

(** The write that follows an accepted status does not look at the
    current status: the selected row is stored with the requested one,
    and its [exit_time] is kept. *)
Lemma write_permit_status_stores (w : World) (permit_id updated_by : string)
    (s : PermitStatus) (reason : option string) (p : Permit) :
  filter (has_id permit_id) (permits w) = [p] ->
  exists p',
    filter (has_id permit_id)
      (permits (snd (write_permit_status permit_id s updated_by reason w)))
    = [p']
    /\ Permit.status p' = s
    /\ Permit.exit_time p' = Permit.exit_time p.
Proof.
  intros Hf. rewrite (write_permit_status_found _ _ _ _ _ _ Hf). cbn.
  exists (set_status p s (clock (ticks w)) updated_by reason).
  split; [| split; reflexivity].
  rewrite replace_row_filter.
  - rewrite Hf. reflexivity.
  - cbn. apply String.eqb_eq. exact (filter_one_holds _ _ _ Hf).
Qed.

(** Storing the same status a second time changes no status. *)
Lemma write_permit_status_twice (w : World) (permit_id updated_by : string)
    (s : PermitStatus) (reason : option string) (p : Permit) :
  filter (has_id permit_id) (permits w) = [p] ->
  let w1 := snd (write_permit_status permit_id s updated_by reason w) in
  map Permit.status
    (permits (snd (write_permit_status permit_id s updated_by reason w1)))
  = map Permit.status (permits w1).
Proof.
  intros Hf. cbv zeta.
  destruct (write_permit_status_stores w permit_id updated_by s reason p Hf)
    as (p1 & Hf1 & Hs1 & _).
  rewrite (write_permit_status_found _ _ _ _ _ _ Hf1). cbn.
  apply (replace_row_map Permit.status _ permit_id p1).
  - exact Hf1.
  - cbn. apply String.eqb_eq. exact (filter_one_holds _ _ _ Hf1).
  - cbn. symmetry. exact Hs1.
Qed.

(** *** Renewal *)

(** The start of the renewed validity and the clock readings it costs. *)
Definition renewal_start (p : Permit) (w : World) : Z * World :=
  if PermitStatus_eqb (Permit.status p) EXPIRED then (clock (ticks w), tick w)
  else match Permit.valid_until p with
       | Some u => (u, w)
       | None => (clock (ticks w), tick w)
       end.

Lemma renew_permit_found (w : World) (permit_id renewed_by : string)
    (additional_days : Z) (p : Permit) :
  filter (has_id permit_id) (permits w) = [p] ->
  let '(from_, w1) := renewal_start p w in
  let p' := set_renewal p from_ (from_ + seconds_of_days additional_days)
              (clock (ticks w1)) renewed_by in
  renew_permit permit_id renewed_by additional_days w =
    (Ok (Some p'), with_permits (tick w1) (replace_row p' (permits w))).
Proof.
  intros Hf. unfold renewal_start, renew_permit.
  rewrite (bind_ok _ _ _ _ _ (get_permit_by_id_one _ _ _ Hf)).
  destruct (PermitStatus_eqb (Permit.status p) EXPIRED); [reflexivity |].
  destruct (Permit.valid_until p); reflexivity.
Qed.

Lemma renew_permit_column {B} (f : Permit -> B) (w : World)
    (permit_id renewed_by : string) (additional_days : Z) :
  (forall p a b c d, f (set_renewal p a b c d) = f p) ->
  map f (permits (snd (renew_permit permit_id renewed_by additional_days w)))
  = map f (permits w).
Proof.
  intros Hcopy.
  destruct (filter (has_id permit_id) (permits w)) as [| p [| q l]] eqn:Hf.
  - unfold renew_permit, get_permit_by_id, select_permits, gets.
    unfold bind. rewrite Hf. reflexivity.
  - pose proof (renew_permit_found w permit_id renewed_by additional_days p Hf)
      as H.
    destruct (renewal_start p w) as [from_ w1]. rewrite H. cbn.
    apply (replace_row_map f _ permit_id p); [exact Hf | | apply Hcopy].
    cbn. apply String.eqb_eq. exact (filter_one_holds _ _ _ Hf).
  - unfold renew_permit, get_permit_by_id, select_permits, gets.
    unfold bind. rewrite Hf. reflexivity.
Qed.

(** Validations run one after another read the same rows: inside the
    validity window the second answer is the first one. *)
Lemma validate_permit_again (w : World) (number : string)
    (gate : option string) (p : Permit) :
  filter (has_number number) (permits w) = [p] ->
  Permit.status p = ACTIVE ->
  (forall k, expired_at p (clock k) = false /\ early_at p (clock k) = false) ->
  fst (validate_permit number gate (snd (validate_permit number gate w)))
  = fst (validate_permit number gate w).
Proof.
  intros Hp Hs Hw.
  rewrite (validate_permit_in_window w number gate p Hp Hs Hw).
  apply validate_permit_in_window; [| exact Hs | exact Hw].
  rewrite validate_permit_readonly. exact Hp.
Qed.

(** ** The claims on the service *)

(** C4. A validation whose permit number selects no row is denied with
    the message "Permit not found"; one whose row is not ACTIVE is denied
    with a message that carries the value of the row's current status. *)
Theorem validate_permit_unknown_or_inactive (w : World) (number : string)
    (gate : option string) :
  ((forall q, In q (permits w) -> Permit.permit_number q <> number) ->
     validate_permit number gate w =
       (Ok (mkValidation false "Permit not found" None), w))
  /\ (forall p,
        filter (has_number number) (permits w) = [p] ->
        Permit.status p <> ACTIVE ->
        validate_permit number gate w =
          (Ok (mkValidation false
                 ("Permit is " ++ PermitStatus_value (Permit.status p))
                 (Some p)), w)).
Proof.
  split.
  - intros Hnone. unfold validate_permit.
    rewrite (bind_ok _ _ w w None); [reflexivity |].
    apply get_permit_by_number_none.
    induction (permits w) as [| q l IH]; [reflexivity |].
    cbn. unfold has_number at 1.
    destruct (String.eqb (Permit.permit_number q) number) eqn:E.
    + apply String.eqb_eq in E. exfalso. apply (Hnone q); [now left | exact E].
    + apply IH. intros q' Hq'. apply Hnone. now right.
  - intros p Hp Hs. now apply validate_permit_inactive.
Qed.

(** C3 (amended). A validation of an ACTIVE permit whose [valid_until]
    lies before the clock reading is denied with "Permit has expired", and
    the stored permits are left as they were: the permit stays ACTIVE. *)
Theorem validate_permit_expired_denied_unchanged (w : World) (number : string)
    (gate : option string) (p : Permit) (u : Z) :
  filter (has_number number) (permits w) = [p] ->
  Permit.status p = ACTIVE ->
  Permit.valid_until p = Some u ->
  u < clock (ticks w) ->
  exists w',
    validate_permit number gate w =
      (Ok (mkValidation false "Permit has expired" (Some p)), w')
    /\ permits w' = permits w.
Proof.
  intros Hp Hs Hu Hlt. exists (tick w). split; [| reflexivity].
  now apply (validate_permit_expired w number gate p u).
Qed.

(** C10 (amended). For an existing, ACTIVE permit that is neither expired
    nor early at the readings of the clock, the validation is denied
    exactly when the caller's gate identifier and the stored one are both
    non-null, both non-empty, and different; the denial says "Permit is
    not valid for this gate", every other case says "Permit is valid". *)
Theorem validate_permit_gate_restriction (w : World) (number : string)
    (gate : option string) (p : Permit) :
  filter (has_number number) (permits w) = [p] ->
  Permit.status p = ACTIVE ->
  (forall k, expired_at p (clock k) = false /\ early_at p (clock k) = false) ->
  exists v,
    fst (validate_permit number gate w) = Ok v
    /\ permit v = Some p
    /\ (valid v = false <->
        exists g s, gate = Some g /\ Permit.gate_id p = Some s
                    /\ g <> "" /\ s <> "" /\ s <> g)
    /\ (valid v = false -> message v = "Permit is not valid for this gate")
    /\ (valid v = true -> message v = "Permit is valid").
Proof.
  intros Hp Hs Hw.
  rewrite (validate_permit_in_window w number gate p Hp Hs Hw).
  pose proof (gate_test_true gate (Permit.gate_id p)) as Hg.
  destruct (truthy gate && truthy (Permit.gate_id p)
            && negb (option_string_eqb (Permit.gate_id p) gate)).
  - eexists. split; [reflexivity |]. cbn.
    split; [reflexivity |]. split; [| split].
    + split; [intros _; apply Hg; reflexivity | reflexivity].
    + reflexivity.
    + discriminate.
  - eexists. split; [reflexivity |]. cbn.
    split; [reflexivity |]. split; [| split].
    + split; [discriminate | intros H; apply Hg in H; discriminate H].
    + discriminate.
    + reflexivity.
Qed.

(** What a successful [create_permit] returns and stores. *)
Lemma create_permit_ok
    (permit_type traveler_id issued_by_user_id : string)
    (gate_id city_id : option string) (valid_days : Z)
    (notes : option string) (w w' : World) (p : Permit) :
  create_permit permit_type traveler_id issued_by_user_id gate_id city_id
    valid_days notes w = (Ok p, w') ->
  exists t,
    p = built_permit w t traveler_id issued_by_user_id gate_id city_id
          valid_days notes
    /\ permits w' = (permits w ++ [p])%list.
Proof.
  intros H.
  destruct (create_permit_cases permit_type traveler_id issued_by_user_id
              gate_id city_id valid_days notes w) as [[e He] | [t Ht]].
  - rewrite H in He. discriminate.
  - cbv zeta in Ht. rewrite H in Ht. cbn in Ht.
    destruct Ht as (_ & Hp & Hw). inversion Hp; subst p.
    exists t. split; [reflexivity | exact Hw].
Qed.

(** C1 (amended). [create_permit] stores a row with status ACTIVE and a
    null [exit_time]; no call of the service writes [exit_time]; a renewal
    sets the status of the selected row to ACTIVE and keeps its
    [exit_time], so the equivalence between EXITED and a non-null
    [exit_time] holds for the renewed row exactly when its [exit_time] is
    null. *)
Theorem exit_time_never_written :
  (forall permit_type traveler_id issued_by_user_id gate_id city_id
          valid_days notes w w' p,
      create_permit permit_type traveler_id issued_by_user_id gate_id city_id
        valid_days notes w = (Ok p, w') ->
      Permit.status p = ACTIVE /\ Permit.exit_time p = None
      /\ exit_invariant p /\ permits w' = (permits w ++ [p])%list)
  /\ (forall w permit_id new_status updated_by reason,
        map Permit.exit_time
          (permits (snd (update_permit_status permit_id new_status updated_by
                           reason w)))
        = map Permit.exit_time (permits w))
  /\ (forall w permit_id renewed_by additional_days,
        map Permit.exit_time
          (permits (snd (renew_permit permit_id renewed_by additional_days w)))
        = map Permit.exit_time (permits w))
  /\ (forall w number gate,
        permits (snd (validate_permit number gate w)) = permits w)
  /\ (forall w permit_id renewed_by additional_days p,
        filter (has_id permit_id) (permits w) = [p] ->
        exists p' w',
          renew_permit permit_id renewed_by additional_days w
            = (Ok (Some p'), w')
          /\ filter (has_id permit_id) (permits w') = [p']
          /\ Permit.status p' = ACTIVE
          /\ Permit.exit_time p' = Permit.exit_time p
          /\ (exit_invariant p' <-> Permit.exit_time p = None)).
Proof.
  split; [| split; [| split; [| split]]].
  - intros permit_type traveler_id issued_by_user_id gate_id city_id
      valid_days notes w w' p H.
    destruct (create_permit_ok _ _ _ _ _ _ _ _ _ _ H) as (t & Hp & Hw).
    subst p. split; [reflexivity |]. split; [reflexivity |].
    split; [| exact Hw].
    unfold exit_invariant. cbn.
    split; [discriminate | intros E; now contradiction E].
  - intros. apply update_permit_status_column. reflexivity.
  - intros. apply renew_permit_column. reflexivity.
  - intros. apply validate_permit_readonly.
  - intros w permit_id renewed_by additional_days p H.
    pose proof (renew_permit_found w permit_id renewed_by additional_days p H)
      as Hr.
    destruct (renewal_start p w) as [from_ w1].
    eexists. eexists. split; [exact Hr |].
    split.
    + cbn. rewrite replace_row_filter.
      * rewrite H. reflexivity.
      * cbn. apply String.eqb_eq. exact (filter_one_holds _ _ _ H).
    + split; [reflexivity |]. split; [reflexivity |].
      unfold exit_invariant. cbn. split.
      * intros [_ Hx]. destruct (Permit.exit_time p) as [x |]; [| reflexivity].
        assert (Hd : ACTIVE = EXITED) by (apply Hx; discriminate).
        discriminate Hd.
      * intros ->. split; [discriminate | intros E; now contradiction E].
Qed.




(** C6 (amended). The row stored by [create_permit] has
    [valid_until = valid_from + valid_days] days (86400 seconds each),
    [valid_from] being a reading of the clock; the rows already stored
    keep their [valid_until], and neither a status update nor a validation
    changes a [valid_until]. *)
Theorem valid_until_fixed_at_creation :
  (forall permit_type traveler_id issued_by_user_id gate_id city_id
          valid_days notes w w' p,
      create_permit permit_type traveler_id issued_by_user_id gate_id city_id
        valid_days notes w = (Ok p, w') ->
      exists t,
        Permit.valid_from p = Some t
        /\ Permit.valid_until p = Some (t + valid_days * 86400)
        /\ map Permit.valid_until (permits w')
           = (map Permit.valid_until (permits w) ++ [Permit.valid_until p])%list)
  /\ (forall w permit_id new_status updated_by reason,
        map Permit.valid_until
          (permits (snd (update_permit_status permit_id new_status updated_by
                           reason w)))
        = map Permit.valid_until (permits w))
  /\ (forall w number gate,
        map Permit.valid_until (permits (snd (validate_permit number gate w)))
        = map Permit.valid_until (permits w)).
Proof.
  split; [| split].
  - intros permit_type traveler_id issued_by_user_id gate_id city_id
      valid_days notes w w' p H.
    destruct (create_permit_ok _ _ _ _ _ _ _ _ _ _ H) as (t & Hp & Hw).
    exists (clock (1 + ticks w)). rewrite Hw, map_app. subst p.
    split; [reflexivity |]. split; reflexivity.
  - intros. apply update_permit_status_column. reflexivity.
  - intros. now rewrite validate_permit_readonly.
Qed.

End Service.

(** ** Concrete runs *)

(** A clock that stands at [t], and fixed answers of the other oracles. *)
Definition clock_at (t : Z) : nat -> Z := fun _ => t.

Definition hex_fixed : nat -> string :=
  fun _ => "3f9a1c7e5b2d4f60a1b2c3d4e5f60718".

Definition Ymd_fixed : Z -> string := fun _ => "20240101".

(** A [PermitType] whose values are the member names. *)
Definition PermitType_by_name (v : string) : option PermitType :=
  if String.eqb v "TRANSIT" then Some TRANSIT
  else if String.eqb v "ENTRY" then Some ENTRY
  else if String.eqb v "EXIT" then Some EXIT
  else if String.eqb v "TEMPORARY" then Some TEMPORARY
  else None.

Definition pk_fixed : list Permit -> string := fun _ => "P2".

Definition allow_all : string -> list string -> bool := fun _ _ => true.

(** Permit P1 of traveler T1, valid from 0 to 100, with a given status,
    gate and exit time; and the world that stores it. *)
Definition permit_P1 (s : PermitStatus) (gate : option string)
    (exit : option Z) : Permit :=
  Permit.mk "P1" "PRMT-20240101-AB12CD" TRANSIT "T1" "U1" gate None
    (Some 0) (Some 100) exit s None 0 0 None None false None.

Definition world_of (rows : list Permit) : World :=
  mkWorld rows ["T1"] ["U1"] ["G1"] ["C1"] 0%nat 0%nat.

Definition request_T1 (gate : option string) (days : Z)
  : PermitCreateRequest :=
  mkPermitCreateRequest "transit" "T1" gate None days None.

(** *** C1 *)

(** C1, refuted as stated: an EXITED permit with an exit time satisfies
    the equivalence, and its renewal stores it ACTIVE with the same exit
    time, which does not. *)
Lemma renewal_breaks_exit_invariant :
  store_invariant (world_of [permit_P1 EXITED None (Some 50)])
  /\ ~ store_invariant
         (snd (renew_permit (clock_at 200) "P1" "U1" 30
                 (world_of [permit_P1 EXITED None (Some 50)]))).
Proof.
  split.
  - intros p [<- | []]. unfold exit_invariant. cbn.
    split; [discriminate | reflexivity].
  - intros H.
    assert (Hin : In (set_renewal (permit_P1 EXITED None (Some 50)) 100
                        (100 + seconds_of_days 30) 200 "U1")
                     (permits (snd (renew_permit (clock_at 200) "P1" "U1" 30
                                 (world_of [permit_P1 EXITED None (Some 50)])))))
      by (now left).
    apply H in Hin. unfold exit_invariant in Hin. cbn in Hin.
    assert (Hd : ACTIVE = EXITED) by (apply Hin; discriminate).
    discriminate Hd.
Qed.

Lemma exit_time_never_written_witness :
  exists p' w',
    renew_permit (clock_at 200) "P1" "U1" 30
      (world_of [permit_P1 EXPIRED None None]) = (Ok (Some p'), w')
    /\ filter (has_id "P1") (permits w') = [p']
    /\ Permit.status p' = ACTIVE
    /\ Permit.exit_time p' = Permit.exit_time (permit_P1 EXPIRED None None)
    /\ (exit_invariant p'
        <-> Permit.exit_time (permit_P1 EXPIRED None None) = None).
Proof.
  apply (proj2 (proj2 (proj2 (proj2
           (exit_time_never_written (clock_at 200) hex_fixed Ymd_fixed
              PermitType_by_name pk_fixed))))
           (world_of [permit_P1 EXPIRED None None]) "P1" "U1" 30
           (permit_P1 EXPIRED None None)).
  reflexivity.
Defined.

(** *** C2 *)



(** *** C3 *)

(** C3, refuted as stated: the validation of an ACTIVE permit past its
    [valid_until] is denied, and the stored permit is still ACTIVE. *)
Lemma validate_permit_expired_stays_active :
  100 < clock_at 200 0
  /\ fst (validate_permit (clock_at 200) "PRMT-20240101-AB12CD" None
            (world_of [permit_P1 ACTIVE None None]))
     = Ok (mkValidation false "Permit has expired"
             (Some (permit_P1 ACTIVE None None)))
  /\ map Permit.status
       (permits (snd (validate_permit (clock_at 200) "PRMT-20240101-AB12CD"
                        None (world_of [permit_P1 ACTIVE None None]))))
     = [ACTIVE].
Proof. split; [reflexivity |]. split; reflexivity. Qed.

Lemma validate_permit_expired_denied_unchanged_witness :
  exists w',
    validate_permit (clock_at 200) "PRMT-20240101-AB12CD" (Some "G1")
      (world_of [permit_P1 ACTIVE None None])
    = (Ok (mkValidation false "Permit has expired"
             (Some (permit_P1 ACTIVE None None))), w')
    /\ permits w' = permits (world_of [permit_P1 ACTIVE None None]).
Proof.
  apply (validate_permit_expired_denied_unchanged (clock_at 200)
           (world_of [permit_P1 ACTIVE None None]) "PRMT-20240101-AB12CD"
           (Some "G1") (permit_P1 ACTIVE None None) 100);
    reflexivity.
Defined.

(** *** C4 *)

Lemma validate_permit_unknown_or_inactive_witness :
  validate_permit (clock_at 50) "PRMT-20240101-000000" None
    (world_of [permit_P1 EXPIRED None None])
  = (Ok (mkValidation false "Permit not found" None),
     world_of [permit_P1 EXPIRED None None])
  /\ validate_permit (clock_at 50) "PRMT-20240101-AB12CD" None
       (world_of [permit_P1 EXPIRED None None])
     = (Ok (mkValidation false "Permit is expired"
              (Some (permit_P1 EXPIRED None None))),
        world_of [permit_P1 EXPIRED None None]).
Proof.
  split.
  - apply (proj1 (validate_permit_unknown_or_inactive (clock_at 50)
                    (world_of [permit_P1 EXPIRED None None])
                    "PRMT-20240101-000000" None)).
    intros q [<- | []]. discriminate.
  - apply (proj2 (validate_permit_unknown_or_inactive (clock_at 50)
                    (world_of [permit_P1 EXPIRED None None])
                    "PRMT-20240101-AB12CD" None)
             (permit_P1 EXPIRED None None)).
    + reflexivity.
    + discriminate.
Defined.

(** *** C5 *)



(** *** C6 *)

(** C6, refuted as stated: a permit created with a duration of 4 ends
    345600 seconds (4 days) after its start, not 4 hours after it. *)
Lemma create_permit_counts_days :
  exists p w',
    create_permit (clock_at 0) hex_fixed Ymd_fixed PermitType_by_name pk_fixed
      "transit" "T1" "U1" None None 4 None (world_of [])
    = (Ok p, w')
    /\ Permit.valid_from p = Some 0
    /\ Permit.valid_until p = Some 345600
    /\ Permit.valid_until p <> Some (0 + 4 * 3600).
Proof.
  exists (built_permit (clock_at 0) hex_fixed Ymd_fixed pk_fixed (world_of [])
            TRANSIT "T1" "U1" None None 4 None).
  exists (snd (create_permit (clock_at 0) hex_fixed Ymd_fixed
                 PermitType_by_name pk_fixed
                 "transit" "T1" "U1" None None 4 None (world_of []))).
  split; [reflexivity |].
  split; [reflexivity |]. split; [reflexivity | discriminate].
Qed.

Lemma valid_until_fixed_at_creation_witness :
  exists t,
    Permit.valid_from
      (built_permit (clock_at 0) hex_fixed Ymd_fixed pk_fixed (world_of [])
         TRANSIT "T1" "U1" None None 4 None) = Some t
    /\ Permit.valid_until
         (built_permit (clock_at 0) hex_fixed Ymd_fixed pk_fixed (world_of [])
            TRANSIT "T1" "U1" None None 4 None) = Some (t + 4 * 86400)
    /\ map Permit.valid_until
         (permits
            (snd (create_permit (clock_at 0) hex_fixed Ymd_fixed
                    PermitType_by_name pk_fixed
                    "transit" "T1" "U1" None None 4 None (world_of []))))
       = (map Permit.valid_until (permits (world_of []))
            ++ [Permit.valid_until
                  (built_permit (clock_at 0) hex_fixed Ymd_fixed pk_fixed
                     (world_of []) TRANSIT "T1" "U1" None None 4 None)])%list.
Proof.
  apply (proj1 (valid_until_fixed_at_creation (clock_at 0) hex_fixed Ymd_fixed
                  PermitType_by_name pk_fixed)
           "transit" "T1" "U1" None None 4 None (world_of [])).
  reflexivity.
Defined.

(** *** C7 *)

(** C7, at the failing input: a status update to EXPIRED of a permit that
    is already EXPIRED raises [ValueError]; the world is left as it was.
    The name is rejected in either case of letters. *)
Theorem update_permit_status_expired_raises :
  update_permit_status (clock_at 200) "P1" "EXPIRED" "U1" None
    (world_of [permit_P1 EXPIRED None None])
  = (Raise (ValueError "Invalid status: EXPIRED"),
     world_of [permit_P1 EXPIRED None None])
  /\ update_permit_status (clock_at 200) "P1" "expired" "U1" None
       (world_of [permit_P1 EXPIRED None None])
     = (Raise (ValueError "Invalid status: expired"),
        world_of [permit_P1 EXPIRED None None]).
Proof. split; reflexivity. Qed.

(** *** C10 *)

(** The world after the creation request of C5: one permit, stored with
    the gate identifier [""]. *)
Definition world_empty_gate : World :=
  snd (create_permit_endpoint (clock_at 0) hex_fixed Ymd_fixed
         PermitType_by_name pk_fixed allow_all
         (request_T1 (Some "") 4) "U1" (world_of [])).

(** C10, refuted as stated: the stored gate identifier [""] is not null,
    the caller supplies "G1", the two differ, and the permit is reported
    valid; likewise when the caller supplies [""] for a permit restricted
    to "G1". *)
Lemma validate_permit_empty_gate_valid :
  map Permit.gate_id (permits world_empty_gate) = [Some ""]
  /\ (exists p,
        fst (validate_permit (clock_at 0) "PRMT-20240101-3F9A1C" (Some "G1")
               world_empty_gate)
        = Ok (mkValidation true "Permit is valid" (Some p))
        /\ Permit.gate_id p = Some "" /\ Permit.gate_id p <> Some "G1")
  /\ fst (validate_permit (clock_at 50) "PRMT-20240101-AB12CD" (Some "")
            (world_of [permit_P1 ACTIVE (Some "G1") None]))
     = Ok (mkValidation true "Permit is valid"
             (Some (permit_P1 ACTIVE (Some "G1") None))).
Proof.
  split; [reflexivity |]. split; [| reflexivity].
  exists (built_permit (clock_at 0) hex_fixed Ymd_fixed pk_fixed (world_of [])
            TRANSIT "T1" "U1" (Some "") None 4 None).
  split; [reflexivity |]. split; [reflexivity | discriminate].
Qed.

Lemma validate_permit_gate_restriction_witness :
  exists v,
    fst (validate_permit (clock_at 50) "PRMT-20240101-AB12CD" (Some "G2")
           (world_of [permit_P1 ACTIVE (Some "G1") None])) = Ok v
    /\ permit v = Some (permit_P1 ACTIVE (Some "G1") None)
    /\ (valid v = false <->
        exists g s, Some "G2" = Some g
                    /\ Permit.gate_id (permit_P1 ACTIVE (Some "G1") None)
                       = Some s
                    /\ g <> "" /\ s <> "" /\ s <> g)
    /\ (valid v = false -> message v = "Permit is not valid for this gate")
    /\ (valid v = true -> message v = "Permit is valid").
Proof.
  apply (validate_permit_gate_restriction (clock_at 50)
           (world_of [permit_P1 ACTIVE (Some "G1") None])
           "PRMT-20240101-AB12CD" (Some "G2")
           (permit_P1 ACTIVE (Some "G1") None)).
  - reflexivity.
  - reflexivity.
  - intros k. split; reflexivity.
Defined.

(** ** The watch-list matcher

    [modules/wanted/service.py] ([WantedService.check_traveler]) is called
    by [modules/travelers/router.py] and is not part of the sources; the
    rows it reads are [WantedPerson] and [WantedNameVariant] of
    [models.py]. *)

Module WatchList.

Local Open Scope Q_scope.

Inductive RiskLevel := LOW | MEDIUM | HIGH.

(** [similarity_score] is a [Numeric(3, 2)]: a decimal, here a rational. *)
Record WantedNameVariant := mkVariant {
  name_variant : string;
  similarity_score : Q
}.

Record WantedPerson := mkWanted {
  full_name : string;
  national_id : option string;
  passport_number : option string;
  risk_level : RiskLevel;
  name_variants : list WantedNameVariant
}.

Record Traveler := mkTraveler {
  traveler_name : string;
  traveler_national_id : option string;
  traveler_passport : option string
}.

(** The dictionary the router reads: [is_match], [matched_person],
    [risk_level], and the confidence of the specification. *)
Record Verdict := mkVerdict {
  is_match : bool;
  matched_person : option WantedPerson;
  matched_risk : option RiskLevel;
  confidence : Q
}.

(** A name a traveler is compared with: the canonical name of a person
    (weight 1) or one of the variants (weight: its [similarity_score]). *)
Record Candidate := mkCandidate {
  cand_person : WantedPerson;
  cand_name : string;
  cand_weight : Q
}.

Definition same_document (a b : option string) : bool :=
  match a, b with
  | Some x, Some y => String.eqb x y
  | _, _ => false
  end.

Definition exact_match (t : Traveler) (p : WantedPerson) : bool :=
  same_document (traveler_national_id t) (national_id p)
  || same_document (traveler_passport t) (passport_number p).

Definition candidates_of (p : WantedPerson) : list Candidate :=
  mkCandidate p (full_name p) 1
  :: map (fun v => mkCandidate p (name_variant v) (similarity_score v))
       (name_variants p).

Section Matcher.

(** The normalized string-similarity function (case, diacritics and
    whitespace normalized) and the configured threshold. *)
Variable similarity : string -> string -> Q.
Variable threshold : Q.

Definition score (t : Traveler) (c : Candidate) : Q :=
  cand_weight c * similarity (traveler_name t) (cand_name c).

Fixpoint best (t : Traveler) (cs : list Candidate) : option Candidate :=
  match cs with
  | [] => None
  | c :: cs' =>
      match best t cs' with
      | None => Some c
      | Some b => if Qle_bool (score t b) (score t c) then Some c else Some b
      end
  end.

(** Modelled from the spec: [WantedService.check_traveler], missing from
    the sources, after section 4.3. An exact match on the national ID or
    the passport number is an immediate match of confidence 1; otherwise
    the traveler's name is compared with every canonical name and every
    variant, the confidence is the weight of the best candidate scaled by
    its string score, a match is declared when the confidence exceeds the
    threshold, and the risk level is the matched person's. *)
Definition check_traveler (watch_list : list WantedPerson) (t : Traveler)
  : Verdict :=
  match find (exact_match t) watch_list with
  | Some p => mkVerdict true (Some p) (Some (risk_level p)) 1
  | None =>
      match best t (flat_map candidates_of watch_list) with
      | None => mkVerdict false None None 0
      | Some c =>
          if Qle_bool (score t c) threshold
          then mkVerdict false None None (score t c)
          else mkVerdict true (Some (cand_person c))
                 (Some (risk_level (cand_person c))) (score t c)
      end
  end.




End Matcher.

(** Scenario E of the specification: a traveler whose name is a stored
    variant, of weight 0.9, of a wanted person of HIGH risk. *)
Definition ahmed : WantedPerson :=
  mkWanted "Ahmed Alsaleh" (Some "N-100") None HIGH
    [mkVariant "Ahmad Al-Saleh" (9 # 10)].

Definition ahmad : Traveler := mkTraveler "Ahmad Al-Saleh" (Some "N-200") None.

(** A string score that tells equal names from different ones. *)
Definition same_name (a b : string) : Q := if String.eqb a b then 1 else 0.


Example scenario_E :
  check_traveler same_name (1 # 2) [ahmed] ahmad
  = mkVerdict true (Some ahmed) (Some HIGH) ((9 # 10) * 1).
Proof. reflexivity. Qed.

End WatchList.

(** ** The queries, the deletion and the update endpoint

    The rest of [PermitsService]: [get_all_permits],
    [get_traveler_permits], [get_expired_permits], [get_expiring_permits],
    and the properties of [delete_permit], [renew_permit] and the lookups
    in combination with the calls above. *)

(** *** [ORDER BY] *)

(** Rows in the order of a key; rows of equal keys keep the order of the
    table (the database may choose another one). *)
Fixpoint insert_row (le : Permit -> Permit -> bool) (p : Permit)
    (rows : list Permit) : list Permit :=
  match rows with
  | [] => [p]
  | q :: rows' =>
      if le p q then p :: rows else q :: insert_row le p rows'
  end.

Definition order_by (le : Permit -> Permit -> bool) (rows : list Permit)
  : list Permit :=
  fold_right (insert_row le) [] rows.

(** [Permit.valid_until.asc()]: a null comes last. *)
Definition valid_until_asc (p q : Permit) : bool :=
  match Permit.valid_until p, Permit.valid_until q with
  | Some a, Some b => a <=? b
  | Some _, None => true
  | None, Some _ => false
  | None, None => true
  end.

(** [Permit.created_at.desc()] *)
Definition created_at_desc (p q : Permit) : bool :=
  Permit.created_at q <=? Permit.created_at p.

Definition PermitType_eqb (a b : PermitType) : bool :=
  match a, b with
  | TRANSIT, TRANSIT | ENTRY, ENTRY | EXIT, EXIT | TEMPORARY, TEMPORARY => true
  | _, _ => false
  end.

(** [Permit.valid_until <= t] and [Permit.valid_until > t] in a [WHERE]:
    a null satisfies neither. *)
Definition until_le (p : Permit) (t : Z) : bool :=
  match Permit.valid_until p with
  | Some u => u <=? t
  | None => false
  end.

Definition until_gt (p : Permit) (t : Z) : bool :=
  match Permit.valid_until p with
  | Some u => t <? u
  | None => false
  end.

Definition is_active (p : Permit) : bool :=
  PermitStatus_eqb (Permit.status p) ACTIVE.

Definition monotone (clock : nat -> Z) : Prop :=
  forall m n, (m <= n)%nat -> clock m <= clock n.

Section Queries.

Set Default Proof Using "Type".

Variable clock : nat -> Z.
Variable PermitType_of_value : string -> option PermitType.

(** The filter a [status] argument adds: none when the argument is a
    false value, none when the lookup of the member raises
    ([except ValueError: pass]). *)
Definition status_filter (status : option string) : Permit -> bool :=
  match status with
  | Some s =>
      if truthy status then
        match PermitStatus_of_value (upper s) with
        | Some st => fun p => PermitStatus_eqb (Permit.status p) st
        | None => fun _ => true
        end
      else fun _ => true
  | None => fun _ => true
  end.

Definition type_filter (permit_type : option string) : Permit -> bool :=
  match permit_type with
  | Some s =>
      if truthy permit_type then
        match PermitType_of_value (upper s) with
        | Some ty => fun p => PermitType_eqb (Permit.permit_type p) ty
        | None => fun _ => true
        end
      else fun _ => true
  | None => fun _ => true
  end.

Definition traveler_filter (traveler_id : option string) : Permit -> bool :=
  match traveler_id with
  | Some t =>
      if truthy traveler_id then fun p => String.eqb (Permit.traveler_id p) t
      else fun _ => true
  | None => fun _ => true
  end.

(** [skip] and [limit] are natural numbers: the router bounds them by
    [ge=0] and [ge=1, le=1000]. *)
Definition get_all_permits (skip limit : nat)
    (status permit_type traveler_id : option string) : M (list Permit) :=
  rows <- select_permits
            (fun p => status_filter status p && type_filter permit_type p
                      && traveler_filter traveler_id p) ;;
  ret (firstn limit (skipn skip (order_by created_at_desc rows))).

Definition get_traveler_permits (traveler_id : string) : M (list Permit) :=
  rows <- select_permits
            (fun p => String.eqb (Permit.traveler_id p) traveler_id) ;;
  ret (order_by created_at_desc rows).

Definition get_expired_permits : M (list Permit) :=
  t <- now clock ;;
  rows <- select_permits (fun p => is_active p && expired_at p t) ;;
  ret (order_by valid_until_asc rows).

Definition get_expiring_permits (days_ahead : Z) : M (list Permit) :=
  t1 <- now clock ;;
  let expiry_threshold := t1 + seconds_of_days days_ahead in
  t2 <- now clock ;;
  rows <- select_permits
            (fun p => is_active p && until_le p expiry_threshold
                      && until_gt p t2) ;;
  ret (order_by valid_until_asc rows).

(** *** Ordering lemmas *)

Lemma insert_row_perm (le : Permit -> Permit -> bool) (p : Permit)
    (rows : list Permit) :
  Permutation (insert_row le p rows) (p :: rows).
Proof.
  induction rows as [| q rows IH]; cbn; [apply Permutation_refl |].
  destruct (le p q); [apply Permutation_refl |].
  eapply Permutation_trans; [apply perm_skip; exact IH | apply perm_swap].
Qed.

Lemma order_by_perm (le : Permit -> Permit -> bool) (rows : list Permit) :
  Permutation (order_by le rows) rows.
Proof.
  induction rows as [| p rows IH]; cbn; [apply Permutation_refl |].
  eapply Permutation_trans; [apply insert_row_perm |].
  apply perm_skip. exact IH.
Qed.

Lemma order_by_in (le : Permit -> Permit -> bool) (rows : list Permit)
    (p : Permit) :
  In p (order_by le rows) <-> In p rows.
Proof.
  split; apply Permutation_in;
    [apply order_by_perm | apply Permutation_sym, order_by_perm].
Qed.

Lemma insert_row_sorted (le : Permit -> Permit -> bool) (p : Permit)
    (rows : list Permit) :
  (forall a b, le a b = false -> le b a = true) ->
  Sorted (fun a b => le a b = true) rows ->
  Sorted (fun a b => le a b = true) (insert_row le p rows).
Proof.
  intros Htot Hs. induction rows as [| q rows IH]; cbn.
  - repeat constructor.
  - destruct (le p q) eqn:E.
    + constructor; [exact Hs | constructor; exact E].
    + inversion Hs as [| q' rows' Hs' Hhd]; subst.
      constructor; [apply IH; exact Hs' |].
      destruct rows as [| r rows]; cbn.
      * constructor. apply Htot. exact E.
      * destruct (le p r).
        -- constructor. apply Htot. exact E.
        -- inversion Hhd; subst. constructor. assumption.
Qed.

Lemma order_by_sorted (le : Permit -> Permit -> bool) (rows : list Permit) :
  (forall a b, le a b = false -> le b a = true) ->
  Sorted (fun a b => le a b = true) (order_by le rows).
Proof.
  intros Htot. induction rows as [| p rows IH]; cbn; [constructor |].
  apply insert_row_sorted; assumption.
Qed.

Lemma valid_until_asc_total (a b : Permit) :
  valid_until_asc a b = false -> valid_until_asc b a = true.
Proof.
  unfold valid_until_asc.
  destruct (Permit.valid_until a), (Permit.valid_until b);
    try reflexivity; try discriminate.
  intros H. apply Z.leb_gt in H. apply Z.leb_le. lia.
Qed.

Lemma created_at_desc_total (a b : Permit) :
  created_at_desc a b = false -> created_at_desc b a = true.
Proof.
  unfold created_at_desc. intros H.
  apply Z.leb_gt in H. apply Z.leb_le. lia.
Qed.

(** *** Facts about the queries *)

Lemma is_active_eq (p : Permit) : is_active p = true <-> Permit.status p = ACTIVE.
Proof. apply PermitStatus_eqb_eq. Qed.

Lemma expired_at_lt (p : Permit) (t : Z) :
  expired_at p t = true <-> exists u, Permit.valid_until p = Some u /\ u < t.
Proof.
  unfold expired_at. destruct (Permit.valid_until p) as [u |].
  - rewrite Z.ltb_lt. split; [intros H; eauto | intros (u' & E & H)].
    inversion E; subst. exact H.
  - split; [discriminate | intros (u' & E & _); discriminate].
Qed.

Lemma get_expired_permits_eq (w : World) :
  get_expired_permits w =
    (Ok (order_by valid_until_asc
           (filter (fun p => is_active p && expired_at p (clock (ticks w)))
              (permits w))), tick w).
Proof. reflexivity. Qed.

Lemma get_expiring_permits_eq (days_ahead : Z) (w : World) :
  get_expiring_permits days_ahead w =
    (Ok (order_by valid_until_asc
           (filter (fun p => is_active p
                             && until_le p (clock (ticks w)
                                            + seconds_of_days days_ahead)
                             && until_gt p (clock (S (ticks w))))
              (permits w))), tick (tick w)).
Proof. reflexivity. Qed.

(** X1. [get_expired_permits] returns exactly the stored permits that are
    ACTIVE with a [valid_until] before the reading of the clock, in
    ascending order of [valid_until], and stores nothing. *)
Theorem get_expired_permits_lists (w : World) :
  exists rows w',
    get_expired_permits w = (Ok rows, w')
    /\ permits w' = permits w
    /\ (forall p, In p rows <->
          In p (permits w) /\ Permit.status p = ACTIVE
          /\ exists u, Permit.valid_until p = Some u /\ u < clock (ticks w))
    /\ Sorted (fun a b => valid_until_asc a b = true) rows.
Proof.
  eexists. eexists. split; [apply get_expired_permits_eq |].
  split; [reflexivity |]. split.
  - intros p. rewrite order_by_in, filter_In, andb_true_iff.
    rewrite is_active_eq, expired_at_lt. reflexivity.
  - apply order_by_sorted. exact valid_until_asc_total.
Qed.

(** X2. Under a clock that does not run backwards, every permit that
    [get_expired_permits] lists is denied by a later [validate_permit]
    with "Permit has expired" (its number selecting that row only). *)
Theorem expired_permits_are_denied (w w' : World) (rows : list Permit)
    (p : Permit) (gate : option string) :
  monotone clock ->
  get_expired_permits w = (Ok rows, w') ->
  In p rows ->
  filter (has_number (Permit.permit_number p)) (permits w) = [p] ->
  fst (validate_permit clock (Permit.permit_number p) gate w')
  = Ok (mkValidation false "Permit has expired" (Some p)).
Proof.
  intros Hmono Hq Hin Huniq.
  rewrite get_expired_permits_eq in Hq. inversion Hq; subst rows w'; clear Hq.
  apply order_by_in in Hin. apply filter_In in Hin as [_ Hf].
  apply andb_true_iff in Hf as [Ha He].
  apply is_active_eq in Ha. apply expired_at_lt in He as (u & Hu & Hlt).
  rewrite (validate_permit_expired clock (tick w) _ gate p u);
    [reflexivity | exact Huniq | exact Ha | exact Hu |].
  cbn. pose proof (Hmono (ticks w) (S (ticks w))) as H. lia.
Qed.

Lemma until_window (p : Permit) (lo hi : Z) :
  until_le p hi && until_gt p lo = true
  <-> exists u, Permit.valid_until p = Some u /\ lo < u <= hi.
Proof.
  unfold until_le, until_gt. destruct (Permit.valid_until p) as [u |].
  - rewrite andb_true_iff, Z.leb_le, Z.ltb_lt. split.
    + intros [H1 H2]. exists u. split; [reflexivity | lia].
    + intros (u' & E & H). inversion E; subst. lia.
  - split; [discriminate | intros (u' & E & _); discriminate].
Qed.

(** X3. [get_expiring_permits] returns exactly the stored permits that
    are ACTIVE with a [valid_until] after the second reading of the clock
    and at most [days_ahead] days after the first, in ascending order of
    [valid_until], and stores nothing. *)
Theorem get_expiring_permits_lists (days_ahead : Z) (w : World) :
  exists rows w',
    get_expiring_permits days_ahead w = (Ok rows, w')
    /\ permits w' = permits w
    /\ (forall p, In p rows <->
          In p (permits w) /\ Permit.status p = ACTIVE
          /\ exists u, Permit.valid_until p = Some u
                       /\ clock (S (ticks w)) < u
                          <= clock (ticks w) + days_ahead * 86400)
    /\ Sorted (fun a b => valid_until_asc a b = true) rows.
Proof.
  eexists. eexists. split; [apply get_expiring_permits_eq |].
  split; [reflexivity |]. split.
  - intros p. rewrite order_by_in, filter_In.
    rewrite <- andb_assoc, andb_true_iff, is_active_eq, until_window.
    reflexivity.
  - apply order_by_sorted. exact valid_until_asc_total.
Qed.

(** X4. Under a clock that does not run backwards, a look-ahead of zero
    or fewer days lists no permit. *)
Theorem get_expiring_permits_no_days (days_ahead : Z) (w : World) :
  monotone clock ->
  days_ahead <= 0 ->
  fst (get_expiring_permits days_ahead w) = Ok [].
Proof.
  intros Hmono Hd. rewrite get_expiring_permits_eq. cbn [fst].
  replace (filter _ (permits w)) with (@nil Permit); [reflexivity |].
  symmetry. induction (permits w) as [| p l IH]; [reflexivity |].
  cbn [filter]. rewrite <- andb_assoc.
  destruct (until_le p _ && until_gt p _) eqn:E.
  - apply until_window in E as (u & _ & Hlo & Hhi).
    pose proof (Hmono (ticks w) (S (ticks w))) as H.
    unfold seconds_of_days in Hhi. exfalso. nia.
  - rewrite andb_false_r. exact IH.
Qed.

(** X5. Under a clock that does not run backwards, a permit listed as
    expired is not listed as expiring by a later call. *)
Theorem expired_then_not_expiring (days_ahead : Z) (w w1 w2 : World)
    (expired expiring : list Permit) (p : Permit) :
  monotone clock ->
  get_expired_permits w = (Ok expired, w1) ->
  get_expiring_permits days_ahead w1 = (Ok expiring, w2) ->
  In p expired -> ~ In p expiring.
Proof.
  intros Hmono H1 H2 Hin Hin2.
  rewrite get_expired_permits_eq in H1. inversion H1; subst expired w1.
  rewrite get_expiring_permits_eq in H2. inversion H2; subst expiring w2.
  apply order_by_in, filter_In in Hin as [_ Hf].
  apply andb_true_iff in Hf as [_ He].
  apply expired_at_lt in He as (u & Hu & Hlt).
  apply order_by_in, filter_In in Hin2 as [_ Hf].
  rewrite <- andb_assoc in Hf. apply andb_true_iff in Hf as [_ Hw].
  apply until_window in Hw as (u' & Hu' & Hlo & _).
  rewrite Hu in Hu'. inversion Hu'; subst u'. cbn in Hlo.
  pose proof (Hmono (ticks w) (S (S (ticks w)))) as H. lia.
Qed.

(** *** [get_all_permits] and [get_traveler_permits] *)

Lemma in_firstn {A} (n : nat) (l : list A) (x : A) :
  In x (firstn n l) -> In x l.
Proof.
  intros H. rewrite <- (firstn_skipn n l). apply in_or_app. now left.
Qed.

Lemma in_skipn {A} (n : nat) (l : list A) (x : A) :
  In x (skipn n l) -> In x l.
Proof.
  intros H. rewrite <- (firstn_skipn n l). apply in_or_app. now right.
Qed.


(** The lookup of an upper-cased status fails, so the filter is the
    trivial one for every argument. *)
Lemma status_filter_trivial (status : option string) (p : Permit) :
  status_filter status p = true.
Proof.
  unfold status_filter. destruct status as [s |]; [| reflexivity].
  destruct (truthy (Some s)); [| reflexivity].
  rewrite PermitStatus_of_value_upper. reflexivity.
Qed.

(** X6. The [status] argument of [get_all_permits] has no effect: with
    any status the call returns what it returns without one. *)
Theorem get_all_permits_status_ignored (skip limit : nat)
    (status permit_type traveler_id : option string) (w : World) :
  get_all_permits skip limit status permit_type traveler_id w
  = get_all_permits skip limit None permit_type traveler_id w.
Proof.
  unfold get_all_permits, select_permits, gets, bind, ret.
  do 5 f_equal. apply filter_ext. intros p.
  rewrite !status_filter_trivial. reflexivity.
Qed.

(** X7. [get_all_permits] returns at most [limit] rows, all of them
    stored; with a non-empty [traveler_id] they all belong to that
    traveler, and with a permit type that is accepted they all have that
    type. Nothing is stored. *)
Theorem get_all_permits_page (skip limit : nat)
    (status permit_type traveler_id : option string) (w : World) :
  exists rows,
    get_all_permits skip limit status permit_type traveler_id w = (Ok rows, w)
    /\ (length rows <= limit)%nat
    /\ forall p, In p rows ->
         In p (permits w)
         /\ (forall t, traveler_id = Some t -> t <> "" ->
                Permit.traveler_id p = t)
         /\ (forall s ty, permit_type = Some s -> s <> "" ->
                PermitType_of_value (upper s) = Some ty ->
                Permit.permit_type p = ty).
Proof.
  eexists. split; [reflexivity |]. split; [apply firstn_le_length |].
  intros p Hin. apply in_firstn, in_skipn, order_by_in, filter_In in Hin.
  destruct Hin as [Hin Hf]. split; [exact Hin |].
  apply andb_true_iff in Hf as [Hf Htr]. apply andb_true_iff in Hf as [_ Hty].
  split.
  - intros t -> Ht. unfold traveler_filter, truthy in Htr.
    apply String.eqb_neq in Ht. rewrite Ht in Htr. cbn in Htr.
    apply String.eqb_eq. exact Htr.
  - intros s ty -> Hs Hlook. unfold type_filter, truthy in Hty.
    apply String.eqb_neq in Hs. rewrite Hs in Hty. cbn in Hty.
    rewrite Hlook in Hty. destruct (Permit.permit_type p), ty;
      try discriminate; reflexivity.
Qed.


(** X9. [get_traveler_permits] returns exactly the stored permits of the
    traveler, the most recently created first, and stores nothing. *)
Theorem get_traveler_permits_lists (traveler_id : string) (w : World) :
  exists rows,
    get_traveler_permits traveler_id w = (Ok rows, w)
    /\ (forall p, In p rows <->
          In p (permits w) /\ Permit.traveler_id p = traveler_id)
    /\ Sorted (fun a b => Permit.created_at b <= Permit.created_at a) rows
    /\ length rows
       = length (filter (fun p => String.eqb (Permit.traveler_id p) traveler_id)
                   (permits w)).
Proof.
  eexists. split; [reflexivity |]. split; [| split].
  - intros p. rewrite order_by_in, filter_In, String.eqb_eq. reflexivity.
  - pose proof (order_by_sorted created_at_desc
                  (filter (fun p => String.eqb (Permit.traveler_id p) traveler_id)
                     (permits w)) created_at_desc_total) as Hs.
    induction Hs as [| x l Hs IH Hhd]; constructor; [exact IH |].
    destruct Hhd as [| y l Hxy]; constructor.
    unfold created_at_desc in Hxy. apply Z.leb_le. exact Hxy.
  - apply Permutation_length, order_by_perm.
Qed.

End Queries.

(** *** Creation, lookup, deletion and renewal in combination *)

Lemma filter_none {A} (h : A -> bool) (l : list A) :
  (forall x, In x l -> h x = false) -> filter h l = [].
Proof.
  induction l as [| a l IH]; intros H; [reflexivity |].
  cbn. rewrite (H a (or_introl eq_refl)). apply IH.
  intros x Hx. apply H. now right.
Qed.

Lemma filter_appended {A} (h : A -> bool) (l : list A) (p : A) :
  (forall x, In x l -> h x = false) -> h p = true ->
  filter h (l ++ [p]) = [p].
Proof.
  intros Hl Hp. rewrite filter_app, (filter_none h l Hl). cbn.
  rewrite Hp. reflexivity.
Qed.

(** X20. The lookup of a status by value succeeds exactly on the value of
    a member, and gives that member. *)
Theorem PermitStatus_lookup_value (v : string) (s : PermitStatus) :
  PermitStatus_of_value v = Some s <-> v = PermitStatus_value s.
Proof.
  split.
  - unfold PermitStatus_of_value. intros H.
    destruct (String.eqb v "active") eqn:E1;
      [apply String.eqb_eq in E1; inversion H; subst; reflexivity |].
    destruct (String.eqb v "exited") eqn:E2;
      [apply String.eqb_eq in E2; inversion H; subst; reflexivity |].
    destruct (String.eqb v "expired") eqn:E3;
      [apply String.eqb_eq in E3; inversion H; subst; reflexivity |].
    destruct (String.eqb v "flagged") eqn:E4;
      [apply String.eqb_eq in E4; inversion H; subst; reflexivity |].
    discriminate.
  - intros ->. destruct s; reflexivity.
Qed.

Section Lifecycle.

Set Default Proof Using "Type".

Variable clock : nat -> Z.
Variable uuid4_hex : nat -> string.
Variable strftime_Ymd : Z -> string.
Variable PermitType_of_value : string -> option PermitType.
Variable fresh_pk : list Permit -> string.

Local Abbreviation create_permit' :=
  (create_permit clock uuid4_hex strftime_Ymd PermitType_of_value fresh_pk).

(** The answer of [validate_permit] for an ACTIVE row with both ends of
    the validity set, in terms of the two readings of the clock. *)
Lemma validate_permit_bounded (w : World) (number : string)
    (gate : option string) (p : Permit) (u f : Z) :
  filter (has_number number) (permits w) = [p] ->
  Permit.status p = ACTIVE ->
  Permit.valid_until p = Some u ->
  Permit.valid_from p = Some f ->
  fst (validate_permit clock number gate w)
  = Ok (if u <? clock (ticks w)
        then mkValidation false "Permit has expired" (Some p)
        else if clock (S (ticks w)) <? f
        then mkValidation false "Permit is not yet valid" (Some p)
        else if truthy gate && truthy (Permit.gate_id p)
                && negb (option_string_eqb (Permit.gate_id p) gate)
        then mkValidation false "Permit is not valid for this gate" (Some p)
        else mkValidation true "Permit is valid" (Some p)).
Proof.
  intros Hp Hs Hu Hf. unfold validate_permit.
  rewrite (bind_ok _ _ _ _ _ (get_permit_by_number_one _ _ _ Hp)).
  rewrite Hs, Hu, Hf. cbn [PermitStatus_eqb negb].
  unfold bind, now, ret.
  destruct (u <? clock (ticks w)); [reflexivity |]. cbn [ticks tick].
  destruct (clock (S (ticks w)) <? f); [reflexivity |].
  destruct (truthy gate && truthy (Permit.gate_id p) && _); reflexivity.
Qed.

(** X10. [delete_permit] on the identifier of a stored permit answers
    [True], removes that row and no other, and a lookup of the identifier
    then finds nothing; on an identifier that selects no row it answers
    [False] and leaves the world as it was. *)
Theorem delete_permit_outcomes (permit_id : string) (w : World) :
  (forall p,
     filter (has_id permit_id) (permits w) = [p] ->
     exists w',
       delete_permit permit_id w = (Ok true, w')
       /\ permits w' = filter (fun q => negb (has_id permit_id q)) (permits w)
       /\ get_permit_by_id permit_id w' = (Ok None, w')
       /\ (forall q, In q (permits w) -> Permit.id q <> permit_id ->
             In q (permits w')))
  /\ ((forall q, In q (permits w) -> Permit.id q <> permit_id) ->
      delete_permit permit_id w = (Ok false, w)).
Proof.
  split.
  - intros p Hf.
    assert (Hid : Permit.id p = permit_id).
    { apply String.eqb_eq. exact (filter_one_holds _ _ _ Hf). }
    exists (with_permits w
              (filter (fun q => negb (has_id permit_id q)) (permits w))).
    split; [| split; [reflexivity | split]].
    + unfold delete_permit.
      rewrite (bind_ok _ _ _ _ _ (get_permit_by_id_one _ _ _ Hf)).
      unfold delete_row, modify, bind, ret, has_id. rewrite Hid. reflexivity.
    + unfold get_permit_by_id, select_permits, gets, bind. cbn [permits with_permits].
      rewrite filter_none; [reflexivity |].
      intros x Hx. apply filter_In in Hx as [_ Hx].
      apply negb_true_iff in Hx. exact Hx.
    + intros q Hq Hne. cbn. apply filter_In. split; [exact Hq |].
      apply negb_true_iff. apply String.eqb_neq. exact Hne.
  - intros Hnone. unfold delete_permit, get_permit_by_id, select_permits, gets.
    unfold bind. rewrite filter_none; [reflexivity |].
    intros x Hx. apply String.eqb_neq. apply Hnone. exact Hx.
Qed.

(** X11. A permit just created is found by its identifier when the key the
    database gave it is not the key of a stored row, and by its number
    when no stored row has that number. *)
Theorem created_permit_is_found
    (permit_type traveler_id issued_by_user_id : string)
    (gate_id city_id : option string) (valid_days : Z)
    (notes : option string) (w w' : World) (p : Permit) :
  create_permit' permit_type traveler_id issued_by_user_id gate_id city_id
    valid_days notes w = (Ok p, w') ->
  ((forall q, In q (permits w) -> Permit.id q <> fresh_pk (permits w)) ->
     get_permit_by_id (Permit.id p) w' = (Ok (Some p), w'))
  /\ ((forall q, In q (permits w) ->
         Permit.permit_number q <> Permit.permit_number p) ->
      get_permit_by_number (Permit.permit_number p) w' = (Ok (Some p), w')).
Proof.
  intros H.
  destruct (create_permit_ok _ _ _ _ _ _ _ _ _ _ _ _ _ _ _ H)
    as (t & Hp & Hw).
  split.
  - intros Hfresh. apply get_permit_by_id_one. rewrite Hw.
    apply filter_appended.
    + intros x Hx. apply String.eqb_neq. rewrite Hp. cbn.
      apply Hfresh. exact Hx.
    + apply String.eqb_refl.
  - intros Hfresh. apply get_permit_by_number_one. rewrite Hw.
    apply filter_appended.
    + intros x Hx. apply String.eqb_neq. apply Hfresh. exact Hx.
    + apply String.eqb_refl.
Qed.

(** X12. A permit just created passes the validation at the gate it was
    created for, and at any gate when none is asked for, as long as the
    clock does not run backwards and has not passed [valid_days] days
    since the start of the validity (its number being a new one). *)
Theorem created_permit_is_valid
    (permit_type traveler_id issued_by_user_id : string)
    (gate_id city_id : option string) (valid_days : Z)
    (notes : option string) (w w' : World) (p : Permit)
    (gate : option string) :
  create_permit' permit_type traveler_id issued_by_user_id gate_id city_id
    valid_days notes w = (Ok p, w') ->
  (forall q, In q (permits w) ->
     Permit.permit_number q <> Permit.permit_number p) ->
  monotone clock ->
  clock (4 + ticks w) <= clock (1 + ticks w) + valid_days * 86400 ->
  gate = gate_id \/ gate = None ->
  fst (validate_permit clock (Permit.permit_number p) gate w')
  = Ok (mkValidation true "Permit is valid" (Some p)).
Proof.
  intros H Hfresh Hmono Hwin Hgate.
  destruct (create_permit_ok _ _ _ _ _ _ _ _ _ _ _ _ _ _ _ H)
    as (t & Hp & Hw).
  assert (Hticks : ticks w' = (4 + ticks w)%nat).
  { destruct (create_permit_cases clock uuid4_hex strftime_Ymd
                PermitType_of_value fresh_pk permit_type traveler_id
                issued_by_user_id gate_id city_id valid_days notes w)
      as [[e He] | [t' Ht']].
    - rewrite H in He. discriminate.
    - clear Ht'. revert H. unfold create_permit.
      destruct (PermitType_of_value (upper permit_type)) as [ty |];
        [rewrite bind_ret | intros H; discriminate H].
      destruct (verify_exists_cases travelers traveler_id
                  ("Traveler with ID " ++ traveler_id ++ " not found") w)
        as [H0 | [e H0]];
        [rewrite (bind_ok _ _ _ _ _ H0)
        | rewrite (bind_raise _ _ _ _ _ H0); intros H; discriminate H].
      destruct (verify_exists_cases users issued_by_user_id
                  ("User with ID " ++ issued_by_user_id ++ " not found") w)
        as [H1 | [e H1]];
        [rewrite (bind_ok _ _ _ _ _ H1)
        | rewrite (bind_raise _ _ _ _ _ H1); intros H; discriminate H].
      destruct (verify_if_provided_cases gates gate_id
                  (fun g => "Gate with ID " ++ g ++ " not found") w)
        as [H2 | [e H2]];
        [rewrite (bind_ok _ _ _ _ _ H2)
        | rewrite (bind_raise _ _ _ _ _ H2); intros H; discriminate H].
      destruct (verify_if_provided_cases cities city_id
                  (fun c => "City with ID " ++ c ++ " not found") w)
        as [H3 | [e H3]];
        [rewrite (bind_ok _ _ _ _ _ H3)
        | rewrite (bind_raise _ _ _ _ _ H3); intros H; discriminate H].
      intros H. inversion H. reflexivity. }
  assert (Hone : filter (has_number (Permit.permit_number p)) (permits w')
                 = [p]).
  { rewrite Hw. apply filter_appended.
    - intros x Hx. apply String.eqb_neq. apply Hfresh. exact Hx.
    - apply String.eqb_refl. }
  rewrite (validate_permit_bounded w' _ gate p
             (clock (1 + ticks w) + seconds_of_days valid_days)
             (clock (1 + ticks w)) Hone);
    [| rewrite Hp; reflexivity | rewrite Hp; reflexivity
     | rewrite Hp; reflexivity].
  rewrite Hticks.
  replace (_ <? clock (4 + ticks w)) with false
    by (symmetry; apply Z.ltb_ge; unfold seconds_of_days; lia).
  replace (clock (S (4 + ticks w)) <? clock (1 + ticks w)) with false
    by (symmetry; apply Z.ltb_ge; apply Hmono; lia).
  replace (truthy gate && truthy (Permit.gate_id p)
           && negb (option_string_eqb (Permit.gate_id p) gate)) with false;
    [reflexivity |].
  symmetry. rewrite Hp. cbn [Permit.gate_id built_permit].
  destruct Hgate as [-> | ->]; [| reflexivity].
  destruct gate_id as [g |]; [| reflexivity].
  cbn. rewrite String.eqb_refl. cbn. apply andb_false_r.
Qed.

(** *** Renewal *)

Lemma filter_map_when {A} (h g : A -> bool) (r : A -> A) (l : list A) :
  (forall q, In q l -> h (r q) = g q) ->
  filter h (map r l) = map r (filter g l).
Proof.
  induction l as [| q l IH]; intros H; [reflexivity |].
  cbn. rewrite (H q (or_introl eq_refl)).
  rewrite IH by (intros x Hx; apply H; now right).
  destruct (g q); reflexivity.
Qed.

(** The row that replaces the one selected by the key is the one selected
    by the number afterwards, when it keeps the number. *)
Lemma replace_row_by_number (l : list Permit) (p p' : Permit) :
  filter (has_id (Permit.id p)) l = [p] ->
  filter (has_number (Permit.permit_number p)) l = [p] ->
  Permit.id p' = Permit.id p ->
  Permit.permit_number p' = Permit.permit_number p ->
  filter (has_number (Permit.permit_number p)) (replace_row p' l) = [p'].
Proof.
  intros Hid Hnum Eid Enum. unfold replace_row.
  rewrite (filter_map_when _ (has_id (Permit.id p))).
  - rewrite Hid. cbn. rewrite Eid, String.eqb_refl. reflexivity.
  - intros q Hq. rewrite Eid. unfold has_id.
    destruct (String.eqb (Permit.id q) (Permit.id p)) eqn:E.
    + unfold has_number. rewrite Enum. apply String.eqb_refl.
    + destruct (has_number (Permit.permit_number p) q) eqn:N; [| reflexivity].
      rewrite (filter_one_in _ _ _ _ Hnum Hq N) in E.
      rewrite String.eqb_refl in E. discriminate.
Qed.

Lemma in_replace_row (l : list Permit) (p' q : Permit) :
  In q l -> Permit.id q <> Permit.id p' -> In q (replace_row p' l).
Proof.
  intros Hq Hne. unfold replace_row. apply in_map_iff. exists q.
  apply String.eqb_neq in Hne. rewrite Hne. split; [reflexivity | exact Hq].
Qed.

Lemma renewal_count_next (c : option Z) :
  match c with
  | Some c => if c =? 0 then 0 else c
  | None => 0
  end + 1
  = match c with Some c => c | None => 0 end + 1.
Proof.
  destruct c as [c |]; [| reflexivity].
  destruct (c =? 0) eqn:E; [| reflexivity].
  apply Z.eqb_eq in E. subst. reflexivity.
Qed.

(** X13. A renewal of a stored permit starts the new validity at the old
    [valid_until], or at the reading of the clock when the status is
    EXPIRED or the old [valid_until] is null; the new [valid_until] is
    [additional_days] days later; the permit is marked renewed and its
    renewal count grows by one (from zero when it was null). *)
Theorem renew_permit_window (w : World) (permit_id renewed_by : string)
    (additional_days : Z) (p : Permit) :
  filter (has_id permit_id) (permits w) = [p] ->
  exists p' w' start,
    renew_permit clock permit_id renewed_by additional_days w
    = (Ok (Some p'), w')
    /\ filter (has_id permit_id) (permits w') = [p']
    /\ start = (if PermitStatus_eqb (Permit.status p) EXPIRED
                then clock (ticks w)
                else match Permit.valid_until p with
                     | Some u => u
                     | None => clock (ticks w)
                     end)
    /\ Permit.valid_from p' = Some start
    /\ Permit.valid_until p' = Some (start + additional_days * 86400)
    /\ Permit.renewed p' = true
    /\ Permit.renewal_count p'
       = Some (match Permit.renewal_count p with Some c => c | None => 0 end
               + 1).
Proof.
  intros Hf.
  pose proof (renew_permit_found clock w permit_id renewed_by additional_days
                p Hf) as Hr.
  unfold renewal_start in Hr.
  assert (Hid : Permit.id p = permit_id)
    by (apply String.eqb_eq; exact (filter_one_holds _ _ _ Hf)).
  destruct (PermitStatus_eqb (Permit.status p) EXPIRED);
    [| destruct (Permit.valid_until p) as [u |]];
    (eexists; eexists; eexists; split; [exact Hr |];
     split; [cbn; rewrite replace_row_filter by exact Hid;
             rewrite Hf; reflexivity |];
     split; [reflexivity |]; split; [reflexivity |];
     split; [reflexivity |]; split; [reflexivity |];
     cbn; f_equal; apply renewal_count_next).
Qed.

(** X14. The renewal of a permit that is not in status EXPIRED and has not
    reached its [valid_until] moves its [valid_from] to that
    [valid_until]: until then the validation answers "Permit is not yet
    valid". *)
Theorem renewed_early_is_not_yet_valid (w : World) (renewed_by : string)
    (additional_days : Z) (p : Permit) (u : Z) (gate : option string) :
  filter (has_id (Permit.id p)) (permits w) = [p] ->
  filter (has_number (Permit.permit_number p)) (permits w) = [p] ->
  Permit.status p <> EXPIRED ->
  Permit.valid_until p = Some u ->
  monotone clock ->
  0 <= additional_days ->
  clock (2 + ticks w) < u ->
  exists p' w',
    renew_permit clock (Permit.id p) renewed_by additional_days w
    = (Ok (Some p'), w')
    /\ fst (validate_permit clock (Permit.permit_number p) gate w')
       = Ok (mkValidation false "Permit is not yet valid" (Some p')).
Proof.
  intros Hid Hnum Hs Hu Hmono Hd Hlt.
  pose proof (renew_permit_found clock w (Permit.id p) renewed_by
                additional_days p Hid) as Hr.
  unfold renewal_start in Hr.
  destruct (PermitStatus_eqb (Permit.status p) EXPIRED) eqn:E;
    [apply PermitStatus_eqb_eq in E; contradiction |].
  rewrite Hu in Hr. eexists. eexists. split; [exact Hr |].
  erewrite validate_permit_bounded;
    [| cbn [permits with_permits];
       apply replace_row_by_number; [exact Hid | exact Hnum | | ]; reflexivity
     | reflexivity | reflexivity | reflexivity].
  cbn [ticks tick with_permits].
  pose proof (Hmono (S (ticks w)) (2 + ticks w)%nat) as H1.
  replace (_ <? clock (S (ticks w))) with false
    by (symmetry; apply Z.ltb_ge; unfold seconds_of_days; lia).
  replace (clock (S (S (ticks w))) <? u) with true
    by (symmetry; apply Z.ltb_lt; exact Hlt).
  reflexivity.
Qed.

(** X15. The renewal of a permit in status EXPIRED makes it pass the
    validation again, at the gate it is restricted to or when no gate is
    asked for, as long as the clock does not run backwards and has not
    passed [additional_days] days since the renewal. *)
Theorem renewed_expired_is_valid (w : World) (renewed_by : string)
    (additional_days : Z) (p : Permit) (gate : option string) :
  filter (has_id (Permit.id p)) (permits w) = [p] ->
  filter (has_number (Permit.permit_number p)) (permits w) = [p] ->
  Permit.status p = EXPIRED ->
  monotone clock ->
  clock (2 + ticks w) <= clock (ticks w) + additional_days * 86400 ->
  gate = Permit.gate_id p \/ gate = None ->
  exists p' w',
    renew_permit clock (Permit.id p) renewed_by additional_days w
    = (Ok (Some p'), w')
    /\ fst (validate_permit clock (Permit.permit_number p) gate w')
       = Ok (mkValidation true "Permit is valid" (Some p')).
Proof.
  intros Hid Hnum Hs Hmono Hwin Hgate.
  pose proof (renew_permit_found clock w (Permit.id p) renewed_by
                additional_days p Hid) as Hr.
  unfold renewal_start in Hr. rewrite Hs in Hr. cbn [PermitStatus_eqb] in Hr.
  eexists. eexists. split; [exact Hr |].
  erewrite validate_permit_bounded;
    [| cbn [permits with_permits];
       apply replace_row_by_number; [exact Hid | exact Hnum | | ]; reflexivity
     | reflexivity | reflexivity | reflexivity].
  cbn [ticks tick with_permits].
  replace (_ <? clock (S (S (ticks w)))) with false
    by (symmetry; apply Z.ltb_ge; unfold seconds_of_days; cbn in Hwin; lia).
  replace (clock (S (S (S (ticks w)))) <? clock (ticks w)) with false
    by (symmetry; apply Z.ltb_ge; apply Hmono; lia).
  cbn [Permit.gate_id set_renewal].
  replace (truthy gate && truthy (Permit.gate_id p)
           && negb (option_string_eqb (Permit.gate_id p) gate)) with false;
    [reflexivity |].
  symmetry. destruct Hgate as [-> | ->]; [| reflexivity].
  destruct (Permit.gate_id p) as [g |]; [| reflexivity].
  cbn. rewrite String.eqb_refl. cbn. apply andb_false_r.
Qed.

(** X16. A renewal touches the selected row only: every stored permit
    with another identifier is still stored, and the number of rows is the
    same; on an identifier that selects no row the renewal answers [None]
    and leaves the world as it was. *)
Theorem renew_permit_other_rows (w : World) (permit_id renewed_by : string)
    (additional_days : Z) :
  (forall p,
     filter (has_id permit_id) (permits w) = [p] ->
     let w' := snd (renew_permit clock permit_id renewed_by additional_days w)
     in
     (forall q, In q (permits w) -> Permit.id q <> permit_id ->
        In q (permits w'))
     /\ length (permits w') = length (permits w))
  /\ ((forall q, In q (permits w) -> Permit.id q <> permit_id) ->
      renew_permit clock permit_id renewed_by additional_days w
      = (Ok None, w)).
Proof.
  split.
  - intros p Hf. cbv zeta.
    pose proof (renew_permit_found clock w permit_id renewed_by
                  additional_days p Hf) as Hr.
    assert (Hid : Permit.id p = permit_id)
      by (apply String.eqb_eq; exact (filter_one_holds _ _ _ Hf)).
    destruct (renewal_start clock p w) as [start w1]. rewrite Hr.
    cbn [snd permits with_permits]. split.
    + intros q Hq Hne. apply in_replace_row; [exact Hq |].
      cbn. rewrite Hid. exact Hne.
    + unfold replace_row. apply length_map.
  - intros Hnone. unfold renew_permit, get_permit_by_id, select_permits, gets.
    unfold bind. rewrite filter_none; [reflexivity |].
    intros x Hx. apply String.eqb_neq. apply Hnone. exact Hx.
Qed.

(** The world after [n] renewals of the same permit, one after another. *)
Fixpoint renew_times (n : nat) (permit_id renewed_by : string)
    (additional_days : Z) (w : World) : World :=
  match n with
  | O => w
  | S k =>
      renew_times k permit_id renewed_by additional_days
        (snd (renew_permit clock permit_id renewed_by additional_days w))
  end.

(** X18. Renewals add up: after [n] renewals of a permit that was not in
    status EXPIRED, its [valid_until] is the original one plus [n] times
    [additional_days] days, whatever the clock read in between, and its
    renewal count has grown by [n]. *)
Theorem renewals_add_up (n : nat) (permit_id renewed_by : string)
    (additional_days : Z) (w : World) (p : Permit) (u : Z) :
  filter (has_id permit_id) (permits w) = [p] ->
  Permit.status p <> EXPIRED ->
  Permit.valid_until p = Some u ->
  exists q,
    filter (has_id permit_id)
      (permits (renew_times n permit_id renewed_by additional_days w)) = [q]
    /\ Permit.valid_until q = Some (u + Z.of_nat n * (additional_days * 86400))
    /\ match Permit.renewal_count q with Some c => c | None => 0 end
       = match Permit.renewal_count p with Some c => c | None => 0 end
         + Z.of_nat n.
Proof.
  revert w p u. induction n as [| n IH]; intros w p u Hf Hs Hu.
  - exists p. cbn [renew_times]. split; [exact Hf |].
    split; [rewrite Hu; f_equal; lia | lia].
  - cbn [renew_times].
    pose proof (renew_permit_found clock w permit_id renewed_by
                  additional_days p Hf) as Hr.
    unfold renewal_start in Hr.
    assert (Hid : Permit.id p = permit_id)
      by (apply String.eqb_eq; exact (filter_one_holds _ _ _ Hf)).
    destruct (PermitStatus_eqb (Permit.status p) EXPIRED) eqn:E;
      [apply PermitStatus_eqb_eq in E; contradiction |].
    rewrite Hu in Hr. rewrite Hr. cbn [snd].
    destruct (IH (with_permits (tick w)
                    (replace_row
                       (set_renewal p u (u + seconds_of_days additional_days)
                          (clock (ticks w)) renewed_by) (permits w)))
                 (set_renewal p u (u + seconds_of_days additional_days)
                    (clock (ticks w)) renewed_by)
                 (u + seconds_of_days additional_days))
      as (q & Hq & Huq & Hcq).
    + cbn [permits with_permits]. rewrite replace_row_filter by exact Hid.
      rewrite Hf. reflexivity.
    + cbn. discriminate.
    + reflexivity.
    + exists q. split; [exact Hq |]. split.
      * rewrite Huq. f_equal. unfold seconds_of_days. lia.
      * rewrite Hcq. cbn [Permit.renewal_count set_renewal].
        rewrite renewal_count_next. lia.
Qed.

(** X19. An answer "valid" of [validate_permit] is given only for a
    stored permit with the number asked for, in status ACTIVE, whose
    [valid_until] is not before the reading of the clock, whose
    [valid_from] is not after a reading of the clock, and whose gate, when
    both gates are given and non-empty, is the gate asked for; the call
    stores nothing. *)
Theorem validate_permit_sound (w w' : World) (number : string)
    (gate : option string) (v : Validation) :
  validate_permit clock number gate w = (Ok v, w') ->
  valid v = true ->
  exists p,
    permit v = Some p
    /\ In p (permits w) /\ Permit.permit_number p = number
    /\ Permit.status p = ACTIVE
    /\ (forall u, Permit.valid_until p = Some u -> clock (ticks w) <= u)
    /\ (forall f, Permit.valid_from p = Some f ->
          f <= clock (ticks w) \/ f <= clock (S (ticks w)))
    /\ (forall g s, gate = Some g -> Permit.gate_id p = Some s ->
          g <> "" -> s <> "" -> s = g)
    /\ permits w' = permits w.
Proof.
  intros H Hv.
  assert (Hw : permits w' = permits w).
  { pose proof (validate_permit_readonly clock w number gate) as Hr.
    rewrite H in Hr. exact Hr. }
  revert H. unfold validate_permit, get_permit_by_number, select_permits, gets.
  unfold bind at 1 2. cbn [fst snd].
  destruct (filter (has_number number) (permits w)) as [| p [| q l]] eqn:Hf;
    cbn [scalar_one_or_none ret raise].
  - intros H. cbn in H. injection H as <- _. discriminate Hv.
  - assert (Hin : In p (permits w) /\ has_number number p = true).
    { apply filter_In. rewrite Hf. now left. }
    destruct Hin as [Hin Hnum]. apply String.eqb_eq in Hnum.
    destruct (PermitStatus_eqb (Permit.status p) ACTIVE) eqn:Es; cbn [negb];
      [| intros H; cbn in H; injection H as <- _; discriminate Hv].
    apply PermitStatus_eqb_eq in Es.
    pose proof (gate_test_true gate (Permit.gate_id p)) as Hg.
    unfold bind, now, ret.
    destruct (Permit.valid_until p) as [u |] eqn:Eu;
      destruct (Permit.valid_from p) as [f |] eqn:Ef;
      repeat (cbv beta iota; cbn [ticks tick];
              match goal with
              | |- (if ?c then _ else _) _ = _ -> _ => destruct c eqn:?
              | |- (if ?c then _ else _) = _ -> _ => destruct c eqn:?
              end);
      cbv beta iota; intros H; injection H as <- _;
      try discriminate Hv;
      repeat match goal with
             | E : (_ <? _) = false |- _ => apply Z.ltb_ge in E
             end;
      (exists p; split; [reflexivity |]; split; [exact Hin |];
       split; [exact Hnum |]; split; [exact Es |];
       split; [intros u' Hu'; rewrite Eu in Hu';
               first [discriminate Hu' | injection Hu' as <-; lia] |];
       split; [intros f' Hf'; rewrite Ef in Hf';
               first [discriminate Hf' | injection Hf' as <-; lia] |];
       split; [| exact Hw];
       intros g s Eg Hs Hg1 Hs1;
       destruct (String.eqb s g) eqn:Esg; [apply String.eqb_eq; exact Esg |];
       apply String.eqb_neq in Esg;
       assert (Hc : truthy gate && truthy (Some s)
                    && negb (option_string_eqb (Some s) gate) = true)
         by (apply gate_test_true; exists g, s; auto);
       rewrite <- Hs in Hc; congruence).
  - intros H. discriminate H.
Qed.

End Lifecycle.

(** *** The update endpoint of [router.py] *)




Section UpdateEndpoint.

Set Default Proof Using "Type".

Variable clock : nat -> Z.
(** [require_permissions], not defined in [core/security.py]. *)
Variable require_permissions : string -> list string -> bool.
(** [str(e)] of an [HTTPException] with a status code and a detail. *)
Variable str_of_HTTPException : Z -> string -> string.
(** [str(e)] of the exception [db.refresh(None)] raises. *)
Variable str_of_refresh_error : string.



End UpdateEndpoint.

(** *** The theorems above on concrete worlds *)

Lemma clock_at_monotone (t : Z) : monotone (clock_at t).
Proof. intros m n _. unfold clock_at. lia. Qed.

Lemma expired_permits_are_denied_witness :
  fst (validate_permit (clock_at 200) "PRMT-20240101-AB12CD" (Some "G1")
         (tick (world_of [permit_P1 ACTIVE None None])))
  = Ok (mkValidation false "Permit has expired"
          (Some (permit_P1 ACTIVE None None))).
Proof.
  apply (expired_permits_are_denied (clock_at 200)
           (world_of [permit_P1 ACTIVE None None])
           (tick (world_of [permit_P1 ACTIVE None None]))
           [permit_P1 ACTIVE None None] (permit_P1 ACTIVE None None)
           (Some "G1")).
  - apply clock_at_monotone.
  - reflexivity.
  - left. reflexivity.
  - reflexivity.
Defined.

Lemma get_expiring_permits_no_days_witness :
  fst (get_expiring_permits (clock_at 50) 0
         (world_of [permit_P1 ACTIVE None None])) = Ok [].
Proof.
  apply (get_expiring_permits_no_days (clock_at 50) 0
           (world_of [permit_P1 ACTIVE None None])).
  - apply clock_at_monotone.
  - lia.
Defined.

Lemma expired_then_not_expiring_witness :
  ~ In (permit_P1 ACTIVE None None)
      (order_by valid_until_asc
         (filter (fun p => is_active p && until_le p (200 + seconds_of_days 7)
                           && until_gt p 200)
            [permit_P1 ACTIVE None None])).
Proof.
  apply (expired_then_not_expiring (clock_at 200) 7
           (world_of [permit_P1 ACTIVE None None])
           (tick (world_of [permit_P1 ACTIVE None None]))
           (tick (tick (tick (world_of [permit_P1 ACTIVE None None]))))
           [permit_P1 ACTIVE None None]).
  - apply clock_at_monotone.
  - reflexivity.
  - reflexivity.
  - left. reflexivity.
Defined.

Lemma delete_permit_outcomes_witness :
  exists w',
    delete_permit "P1" (world_of [permit_P1 ACTIVE None None]) = (Ok true, w')
    /\ permits w'
       = filter (fun q => negb (has_id "P1" q))
           (permits (world_of [permit_P1 ACTIVE None None]))
    /\ get_permit_by_id "P1" w' = (Ok None, w')
    /\ (forall q, In q (permits (world_of [permit_P1 ACTIVE None None])) ->
          Permit.id q <> "P1" -> In q (permits w')).
Proof.
  apply (proj1 (delete_permit_outcomes "P1"
                  (world_of [permit_P1 ACTIVE None None]))
           (permit_P1 ACTIVE None None)).
  reflexivity.
Defined.

Lemma created_permit_is_found_witness :
  get_permit_by_id "P2"
    (snd (create_permit (clock_at 0) hex_fixed Ymd_fixed PermitType_by_name
            pk_fixed "transit" "T1" "U1" None None 4 None
            (world_of [permit_P1 ACTIVE None None])))
  = (Ok (Some (built_permit (clock_at 0) hex_fixed Ymd_fixed pk_fixed
                 (world_of [permit_P1 ACTIVE None None]) TRANSIT "T1" "U1"
                 None None 4 None)),
     snd (create_permit (clock_at 0) hex_fixed Ymd_fixed PermitType_by_name
            pk_fixed "transit" "T1" "U1" None None 4 None
            (world_of [permit_P1 ACTIVE None None]))).
Proof.
  apply (proj1 (created_permit_is_found (clock_at 0) hex_fixed Ymd_fixed
                  PermitType_by_name pk_fixed "transit" "T1" "U1" None None 4
                  None (world_of [permit_P1 ACTIVE None None]) _ _ eq_refl)).
  intros q [<- | []]. discriminate.
Defined.

Lemma created_permit_is_valid_witness :
  fst (validate_permit (clock_at 0) "PRMT-20240101-3F9A1C" (Some "G1")
         (snd (create_permit (clock_at 0) hex_fixed Ymd_fixed
                 PermitType_by_name pk_fixed "transit" "T1" "U1" (Some "G1")
                 None 4 None (world_of [permit_P1 ACTIVE None None]))))
  = Ok (mkValidation true "Permit is valid"
          (Some (built_permit (clock_at 0) hex_fixed Ymd_fixed pk_fixed
                   (world_of [permit_P1 ACTIVE None None]) TRANSIT "T1" "U1"
                   (Some "G1") None 4 None))).
Proof.
  apply (created_permit_is_valid (clock_at 0) hex_fixed Ymd_fixed
           PermitType_by_name pk_fixed "transit" "T1" "U1" (Some "G1") None 4
           None (world_of [permit_P1 ACTIVE None None]) _ _ (Some "G1")
           eq_refl).
  - intros q [<- | []]. discriminate.
  - apply clock_at_monotone.
  - unfold clock_at. lia.
  - left. reflexivity.
Defined.

Lemma renew_permit_window_witness :
  exists p' w' start,
    renew_permit (clock_at 50) "P1" "U1" 30
      (world_of [permit_P1 ACTIVE None None]) = (Ok (Some p'), w')
    /\ filter (has_id "P1") (permits w') = [p']
    /\ start = (if PermitStatus_eqb
                     (Permit.status (permit_P1 ACTIVE None None)) EXPIRED
                then clock_at 50 (ticks (world_of [permit_P1 ACTIVE None None]))
                else match Permit.valid_until (permit_P1 ACTIVE None None) with
                     | Some u => u
                     | None =>
                         clock_at 50
                           (ticks (world_of [permit_P1 ACTIVE None None]))
                     end)
    /\ Permit.valid_from p' = Some start
    /\ Permit.valid_until p' = Some (start + 30 * 86400)
    /\ Permit.renewed p' = true
    /\ Permit.renewal_count p'
       = Some (match Permit.renewal_count (permit_P1 ACTIVE None None) with
               | Some c => c
               | None => 0
               end + 1).
Proof.
  apply (renew_permit_window (clock_at 50)
           (world_of [permit_P1 ACTIVE None None]) "P1" "U1" 30
           (permit_P1 ACTIVE None None)).
  reflexivity.
Defined.

Lemma renewed_early_is_not_yet_valid_witness :
  exists p' w',
    renew_permit (clock_at 50) "P1" "U1" 30
      (world_of [permit_P1 ACTIVE None None]) = (Ok (Some p'), w')
    /\ fst (validate_permit (clock_at 50) "PRMT-20240101-AB12CD" None w')
       = Ok (mkValidation false "Permit is not yet valid" (Some p')).
Proof.
  apply (renewed_early_is_not_yet_valid (clock_at 50)
           (world_of [permit_P1 ACTIVE None None]) "U1" 30
           (permit_P1 ACTIVE None None) 100 None).
  - reflexivity.
  - reflexivity.
  - discriminate.
  - reflexivity.
  - apply clock_at_monotone.
  - lia.
  - unfold clock_at. lia.
Defined.

Lemma renewed_expired_is_valid_witness :
  exists p' w',
    renew_permit (clock_at 200) "P1" "U1" 30
      (world_of [permit_P1 EXPIRED (Some "G1") None]) = (Ok (Some p'), w')
    /\ fst (validate_permit (clock_at 200) "PRMT-20240101-AB12CD" (Some "G1")
              w')
       = Ok (mkValidation true "Permit is valid" (Some p')).
Proof.
  apply (renewed_expired_is_valid (clock_at 200)
           (world_of [permit_P1 EXPIRED (Some "G1") None]) "U1" 30
           (permit_P1 EXPIRED (Some "G1") None) (Some "G1")).
  - reflexivity.
  - reflexivity.
  - reflexivity.
  - apply clock_at_monotone.
  - unfold clock_at. lia.
  - left. reflexivity.
Defined.

Lemma renew_permit_other_rows_witness :
  renew_permit (clock_at 200) "P9" "U1" 30
    (world_of [permit_P1 EXPIRED None None])
  = (Ok None, world_of [permit_P1 EXPIRED None None]).
Proof.
  apply (proj2 (renew_permit_other_rows (clock_at 200)
                  (world_of [permit_P1 EXPIRED None None]) "P9" "U1" 30)).
  intros q [<- | []]. discriminate.
Defined.

Lemma renewals_add_up_witness :
  exists q,
    filter (has_id "P1")
      (permits (renew_times (clock_at 50) 3 "P1" "U1" 30
                  (world_of [permit_P1 ACTIVE None None]))) = [q]
    /\ Permit.valid_until q = Some (100 + Z.of_nat 3 * (30 * 86400))
    /\ match Permit.renewal_count q with Some c => c | None => 0 end
       = match Permit.renewal_count (permit_P1 ACTIVE None None) with
         | Some c => c
         | None => 0
         end + Z.of_nat 3.
Proof.
  apply (renewals_add_up (clock_at 50) 3 "P1" "U1" 30
           (world_of [permit_P1 ACTIVE None None])
           (permit_P1 ACTIVE None None) 100).
  - reflexivity.
  - discriminate.
  - reflexivity.
Defined.

Lemma validate_permit_sound_witness :
  exists p,
    permit (mkValidation true "Permit is valid"
              (Some (permit_P1 ACTIVE (Some "G1") None))) = Some p
    /\ In p (permits (world_of [permit_P1 ACTIVE (Some "G1") None]))
    /\ Permit.permit_number p = "PRMT-20240101-AB12CD"
    /\ Permit.status p = ACTIVE
    /\ (forall u, Permit.valid_until p = Some u ->
          clock_at 50 (ticks (world_of [permit_P1 ACTIVE (Some "G1") None]))
          <= u)
    /\ (forall f, Permit.valid_from p = Some f ->
          f <= clock_at 50
                 (ticks (world_of [permit_P1 ACTIVE (Some "G1") None]))
          \/ f <= clock_at 50
                    (S (ticks (world_of [permit_P1 ACTIVE (Some "G1") None]))))
    /\ (forall g s, Some "G1" = Some g -> Permit.gate_id p = Some s ->
          g <> "" -> s <> "" -> s = g)
    /\ permits (tick (tick (world_of [permit_P1 ACTIVE (Some "G1") None])))
       = permits (world_of [permit_P1 ACTIVE (Some "G1") None]).
Proof.
  apply (validate_permit_sound (clock_at 50)
           (world_of [permit_P1 ACTIVE (Some "G1") None])
           (tick (tick (world_of [permit_P1 ACTIVE (Some "G1") None])))
           "PRMT-20240101-AB12CD" (Some "G1")
           (mkValidation true "Permit is valid"
              (Some (permit_P1 ACTIVE (Some "G1") None)))).
  - reflexivity.
  - reflexivity.
Defined.


(** *** A creation request that is accepted *)




Section CreateAccepted.

Set Default Proof Using "Type".

Variable clock : nat -> Z.
Variable uuid4_hex : nat -> string.
Variable strftime_Ymd : Z -> string.
Variable PermitType_of_value : string -> option PermitType.
Variable fresh_pk : list Permit -> string.
Variable require_permissions : string -> list string -> bool.


End CreateAccepted.

